(** * Fila Solidaria: the donation lifecycle engine

    A shallow embedding of the backend's donation module
    (donation.service.ts, donation.repository.ts, the candidacy and
    donation-progress repositories and utils/helpers.ts) together with the
    properties of the lifecycle that the specification states.

    The persistent store (MongoDB through Prisma) is a record of finite maps
    and lists; every repository method is an action of a small state and
    error monad.  There is no transaction in the source: a write that has been
    issued stays issued when a later call of the same service method throws,
    and the monad keeps the store of the moment of the throw. *)

From Stdlib Require Import Ascii.
From stdpp Require Import gmap strings list fin_maps.

Local Open Scope string_scope.
Local Open Scope list_scope.

(** ** JavaScript values and objects (utils/helpers.ts works on these) *)

Inductive jsval :=
| JUndefined
| JNull
| JBool (b : bool)
| JNumber (n : Z)
| JString (s : string).

#[global] Instance jsval_eq_dec : EqDecision jsval.
Proof. solve_decision. Defined.

(** [a !== b] on primitive values. *)
Definition strict_neq (a b : jsval) : bool := bool_decide (a ≠ b).

(** [obj[key]]: a missing key reads as [undefined]. *)
Definition js_get (obj : gmap string jsval) (key : string) : jsval :=
  default JUndefined (obj !! key).

(** One entry of the record returned by [getObjectDifferences]. *)
Record FieldChange := { oldValue : jsval; newValue : jsval }.

#[global] Instance FieldChange_eq_dec : EqDecision FieldChange.
Proof. solve_decision. Defined.

(** helpers.ts, [getObjectDifferences]: for every key of [newObj], the key is
    recorded when [newObj[key] !== undefined && oldObj[key] !== newObj[key]]. *)
Definition getObjectDifferences (oldObj newObj : gmap string jsval)
  : gmap string FieldChange :=
  map_imap (λ key v,
      if negb (bool_decide (v = JUndefined)) && strict_neq (js_get oldObj key) v
      then Some {| oldValue := js_get oldObj key; newValue := v |}
      else None) newObj.

(** [Object.keys(o).length] *)
Definition keys_length {A} (o : gmap string A) : nat := size o.


(** The character class [\d] of a JavaScript regular expression: the ten
    ASCII digits. *)
Definition is_digit (c : Ascii.ascii) : bool :=
  (48 <=? Ascii.nat_of_ascii c)%nat && (Ascii.nat_of_ascii c <=? 57)%nat.

(** [s.replace(/\D/g, "")]: drop every character that is not a digit. A
    character outside ASCII is a run of bytes above 127 here, none of them a
    digit, and is dropped whole as in the source. *)
Fixpoint remove_non_digits (s : string) : string :=
  match s with
  | EmptyString => EmptyString
  | String c rest =>
      if is_digit c then String c (remove_non_digits rest)
      else remove_non_digits rest
  end.

(** helpers.ts, [formatPostalCode] and [formatPhone]. *)
Definition formatPostalCode (postalCode : string) : string :=
  remove_non_digits postalCode.

Definition formatPhone (phone : string) : string :=
  remove_non_digits phone.

(** [n] digits at the head of [s], and what follows them: the regular
    expression fragment [\d{n}]. *)
Fixpoint take_digits (n : nat) (s : string) : option string :=
  match n with
  | O => Some s
  | S n' =>
      match s with
      | String c rest => if is_digit c then take_digits n' rest else None
      | EmptyString => None
      end
  end.

(** donation.schema.ts, the test of [postalCode]: [/^\d{5}-?\d{3}$/]. *)
Definition postalCode_regex (s : string) : bool :=
  match take_digits 5 s with
  | Some rest =>
      let rest' := match rest with
                   | String "-"%char r => r
                   | _ => rest
                   end in
      match take_digits 3 rest' with
      | Some EmptyString => true
      | _ => false
      end
  | None => false
  end.

(** ** Data model *)

Inductive DonationStatus := OPEN | IN_PROGRESS | PICKED_UP | COMPLETED.

#[global] Instance DonationStatus_eq_dec : EqDecision DonationStatus.
Proof. solve_decision. Defined.

Definition status_name (st : DonationStatus) : string :=
  match st with
  | OPEN => "OPEN"
  | IN_PROGRESS => "IN_PROGRESS"
  | PICKED_UP => "PICKED_UP"
  | COMPLETED => "COMPLETED"
  end.

(** types/index.ts, [CreateDonationData]; the two enumerations are string
    literal unions in the source and are strings here. *)
Record CreateDonationData := {
  title : string;
  description : string;
  pickupType : string;
  postalCode : string;
  street : string;
  locationNumber : string;
  neighborhood : string;
  city : string;
  state : string;
  category : string
}.

(** types/index.ts, [UpdateDonationData]: every field optional. *)
Record UpdateDonationData := {
  u_title : option string;
  u_description : option string;
  u_pickupType : option string;
  u_postalCode : option string;
  u_street : option string;
  u_locationNumber : option string;
  u_neighborhood : option string;
  u_city : option string;
  u_state : option string;
  u_category : option string
}.

(** The Donation document. Identifiers are strings, as in the source. *)
Record Donation := {
  id : string;
  sequentialId : Z;
  content : CreateDonationData;
  status : DonationStatus;
  donorId : string;
  receiverId : option string;
  returnReason : option string
}.

Record Candidacy := {
  c_donationId : string;
  c_userId : string
}.

#[global] Instance Candidacy_eq_dec : EqDecision Candidacy.
Proof. solve_decision. Defined.

(** The DonationProgress document: seven checkboxes. *)
Record DonationProgress := {
  pickupConfirmedByDonor : bool;
  pickupConfirmedByReceiver : bool;
  completionConfirmedByDonor : bool;
  completionConfirmedByReceiver : bool;
  returnSignaledByReceiver : bool;
  returnConfirmedByDonor : bool;
  returnConfirmedByReceiver : bool
}.

(** [Partial<Omit<DonationProgress, "id" | "donationId">>], the argument of
    the progress repository's [update]. *)
Record ProgressPartial := {
  p_pickupConfirmedByDonor : option bool;
  p_pickupConfirmedByReceiver : option bool;
  p_completionConfirmedByDonor : option bool;
  p_completionConfirmedByReceiver : option bool;
  p_returnSignaledByReceiver : option bool;
  p_returnConfirmedByDonor : option bool;
  p_returnConfirmedByReceiver : option bool
}.

(** The [updates] parameter of [DonationService.updateProgress] (and the
    output of [updateProgressSchema]): six optional flags, with no
    [returnSignaledByReceiver] among them. *)
Record ProgressUpdates := {
  up_pickupConfirmedByDonor : option bool;
  up_pickupConfirmedByReceiver : option bool;
  up_completionConfirmedByDonor : option bool;
  up_completionConfirmedByReceiver : option bool;
  up_returnConfirmedByDonor : option bool;
  up_returnConfirmedByReceiver : option bool
}.

Record DonationEditHistory := {
  h_donationId : string;
  changedFields : gmap string FieldChange
}.

(** The collections of the database. [candidacies] and [editHistory] are kept
    in creation order (oldest first); [progress] is keyed by its unique
    [donationId]; [counter] is the "donation_sequential_id" counter document,
    absent until the first donation is created. *)
Record Store := {
  users : gset string;
  donations : gmap string Donation;
  candidacies : list Candidacy;
  progress : gmap string DonationProgress;
  editHistory : list DonationEditHistory;
  counter : option Z
}.

Definition empty_store (us : gset string) : Store :=
  {| users := us; donations := ∅; candidacies := []; progress := ∅;
     editHistory := []; counter := None |}.

Definition set_donations (f : gmap string Donation → gmap string Donation) (s : Store) : Store :=
  {| users := users s; donations := f (donations s); candidacies := candidacies s;
     progress := progress s; editHistory := editHistory s; counter := counter s |}.

Definition set_candidacies (f : list Candidacy → list Candidacy) (s : Store) : Store :=
  {| users := users s; donations := donations s; candidacies := f (candidacies s);
     progress := progress s; editHistory := editHistory s; counter := counter s |}.

Definition set_progress (f : gmap string DonationProgress → gmap string DonationProgress)
    (s : Store) : Store :=
  {| users := users s; donations := donations s; candidacies := candidacies s;
     progress := f (progress s); editHistory := editHistory s; counter := counter s |}.

Definition set_editHistory (f : list DonationEditHistory → list DonationEditHistory)
    (s : Store) : Store :=
  {| users := users s; donations := donations s; candidacies := candidacies s;
     progress := progress s; editHistory := f (editHistory s); counter := counter s |}.

Definition set_counter (c : option Z) (s : Store) : Store :=
  {| users := users s; donations := donations s; candidacies := candidacies s;
     progress := progress s; editHistory := editHistory s; counter := c |}.

(** ** Errors and the store monad *)

(** shared/errors/AppError.ts: the subclasses of [AppError]. *)
Inductive AppErrorKind :=
| NotFoundError
| UnauthorizedError
| ForbiddenError
| ConflictError
| ValidationError
| InternalServerError.

Definition statusCode (k : AppErrorKind) : Z :=
  match k with
  | NotFoundError => 404
  | UnauthorizedError => 401
  | ForbiddenError => 403
  | ConflictError => 409
  | ValidationError => 400
  | InternalServerError => 500
  end.

(** What a service method can throw: one of the application's own errors (the
    message text is left out), or a [PrismaClientKnownRequestError] of the
    store: P2002 is a unique-constraint violation, P2025 a missing record. *)
Inductive Failure :=
| AppError (k : AppErrorKind)
| P2002
| P2025.

Inductive Result (A : Type) :=
| Ok (a : A)
| Err (e : Failure).
Arguments Ok {A} a.
Arguments Err {A} e.

Definition M (A : Type) : Type := Store → Result A * Store.

Definition ret {A} (a : A) : M A := λ s, (Ok a, s).
Definition throw {A} (e : Failure) : M A := λ s, (Err e, s).
Definition bind {A B} (m : M A) (k : A → M B) : M B :=
  λ s, match m s with
       | (Ok a, s') => k a s'
       | (Err e, s') => (Err e, s')
       end.
Definition gets {A} (f : Store → A) : M A := λ s, (Ok (f s), s).
Definition modify (f : Store → Store) : M unit := λ s, (Ok tt, f s).

Notation "'let*' x ':=' m 'in' k" := (bind m (λ x, k))
  (at level 10, x name, m at level 100, k at level 200).
Notation "m ';;;' k" := (bind m (λ _, k))
  (at level 100, k at level 200, right associativity).

(** ** JavaScript truthiness, as the service uses it *)

(** [!!x] for [x : string | null]: [null] and the empty string are falsy. *)
Definition truthy_id (x : option string) : bool :=
  match x with
  | Some s => negb (bool_decide (s = ""))
  | None => false
  end.

(** [!!x] for [x : boolean | undefined]. *)
Definition truthy_flag (x : option bool) : bool := default false x.

(** [x !== undefined] *)
Definition defined {A} (x : option A) : bool :=
  match x with Some _ => true | None => false end.

(** [a ?? b] *)
Definition nullish {A} (a : option A) (b : A) : A := default b a.

(** ** donation.repository.ts *)

Module DonationRepository.

(** [prisma.counter.upsert]: create the counter at 1 or increment it. *)
Definition getNextSequentialId : M Z :=
  let* c := gets counter in
  let v := match c with Some n => (n + 1)%Z | None => 1%Z end in
  modify (set_counter (Some v));;;
  ret v.

(** [newId] is the ObjectId that the database assigns to the document; a
    clash with an existing document is the store's unique-key error. *)
Definition create (newId donorId : string) (data : CreateDonationData) : M Donation :=
  let* sequentialId := getNextSequentialId in
  let* ds := gets donations in
  match ds !! newId with
  | Some _ => throw P2002
  | None =>
      let d := {| id := newId; sequentialId := sequentialId; content := data;
                  status := OPEN; donorId := donorId; receiverId := None;
                  returnReason := None |} in
      modify (set_donations (insert newId d));;;
      ret d
  end.

Definition findById (i : string) : M (option Donation) :=
  gets (λ s, donations s !! i).

(** Prisma leaves a field whose value is [undefined] as it is. *)
Definition apply_update (data : UpdateDonationData) (c : CreateDonationData)
  : CreateDonationData :=
  {| title := nullish (u_title data) (title c);
     description := nullish (u_description data) (description c);
     pickupType := nullish (u_pickupType data) (pickupType c);
     postalCode := nullish (u_postalCode data) (postalCode c);
     street := nullish (u_street data) (street c);
     locationNumber := nullish (u_locationNumber data) (locationNumber c);
     neighborhood := nullish (u_neighborhood data) (neighborhood c);
     city := nullish (u_city data) (city c);
     state := nullish (u_state data) (state c);
     category := nullish (u_category data) (category c) |}.

(** [prisma.donation.update({ where: { id }, data: ... })] for a function
    [f] on the document; P2025 when there is no such document. *)
Definition update_with (i : string) (f : Donation → Donation) : M Donation :=
  let* ds := gets donations in
  match ds !! i with
  | None => throw P2025
  | Some d =>
      modify (set_donations (insert i (f d)));;;
      ret (f d)
  end.

Definition update (i : string) (data : UpdateDonationData) : M Donation :=
  update_with i (λ d,
    {| id := id d; sequentialId := sequentialId d;
       content := apply_update data (content d);
       status := status d; donorId := donorId d; receiverId := receiverId d;
       returnReason := returnReason d |}).

(** Modelled from the spec: the Prisma schema, which declares the relations
    of a donation with [onDelete: Cascade], is not among the sources; the
    deletion of a donation "cascades to its Candidacies, Progress record, and
    Edit History" (the repository's comment on [delete] says the same of
    candidacies and history). *)
Definition cascade (i : string) (s : Store) : Store :=
  set_editHistory (filter (λ h, h_donationId h ≠ i))
    (set_progress (base.delete i)
       (set_candidacies (filter (λ c, c_donationId c ≠ i)) s)).

(** [prisma.donation.delete({ where: { id } })] *)
Definition delete (i : string) : M unit :=
  let* ds := gets donations in
  match ds !! i with
  | None => throw P2025
  | Some _ =>
      modify (set_donations (base.delete i));;;
      modify (cascade i)
  end.

Definition saveDonationEditHistory (donationId : string)
    (changed : gmap string FieldChange) : M DonationEditHistory :=
  let h := {| h_donationId := donationId; changedFields := changed |} in
  modify (set_editHistory (λ l, l ++ [h]));;;
  ret h.

(** [orderBy: { editedAt: "desc" }]: newest first. *)
Definition getDonationEditHistory (donationId : string) : M (list DonationEditHistory) :=
  gets (λ s, reverse (filter (λ h, h_donationId h = donationId) (editHistory s))).

(** The [data] objects of the four status and receiver updates below. *)
Definition with_status (st : DonationStatus) (d : Donation) : Donation :=
  {| id := id d; sequentialId := sequentialId d; content := content d;
     status := st; donorId := donorId d; receiverId := receiverId d;
     returnReason := returnReason d |}.

Definition with_receiver (receiver : string) (d : Donation) : Donation :=
  {| id := id d; sequentialId := sequentialId d; content := content d;
     status := IN_PROGRESS; donorId := donorId d; receiverId := Some receiver;
     returnReason := returnReason d |}.

Definition without_receiver (d : Donation) : Donation :=
  {| id := id d; sequentialId := sequentialId d; content := content d;
     status := OPEN; donorId := donorId d; receiverId := None;
     returnReason := None |}.

Definition with_returnReason (reason : string) (d : Donation) : Donation :=
  {| id := id d; sequentialId := sequentialId d; content := content d;
     status := status d; donorId := donorId d; receiverId := receiverId d;
     returnReason := Some reason |}.

Definition updateStatus (i : string) (st : DonationStatus) : M Donation :=
  update_with i (with_status st).

(** [data: { receiverId, status: "IN_PROGRESS" }] *)
Definition setReceiver (donationId receiver : string) : M Donation :=
  update_with donationId (with_receiver receiver).

(** [data: { receiverId: null, status: "OPEN", returnReason: null }] *)
Definition removeReceiver (donationId : string) : M Donation :=
  update_with donationId without_receiver.

(** [data: { returnReason: reason }] *)
Definition updateReturnReason (donationId reason : string) : M Donation :=
  update_with donationId (with_returnReason reason).

End DonationRepository.

(** ** candidacy.repository.ts *)

Module CandidacyRepository.

Definition is_pair (donationId userId : string) (c : Candidacy) : Prop :=
  c_donationId c = donationId ∧ c_userId c = userId.

#[global] Instance is_pair_dec d u c : Decision (is_pair d u c).
Proof. unfold is_pair. apply _. Defined.

(** [findUnique] on the compound unique key [donationId_userId]. *)
Definition findByDonationAndUser (donationId userId : string) : M (option Candidacy) :=
  gets (λ s, head (filter (is_pair donationId userId) (candidacies s))).

(** The unique constraint on (donationId, userId) rejects a second
    candidacy of the same pair with P2002. *)
Definition create (donationId userId : string) : M Candidacy :=
  let* existing := findByDonationAndUser donationId userId in
  match existing with
  | Some _ => throw P2002
  | None =>
      let c := {| c_donationId := donationId; c_userId := userId |} in
      modify (set_candidacies (λ l, l ++ [c]));;;
      ret c
  end.

(** [orderBy: { createdAt: "asc" }]: the order of the collection. *)
Definition findByDonation (donationId : string) : M (list Candidacy) :=
  gets (λ s, filter (λ c, c_donationId c = donationId) (candidacies s)).

(** [delete({ where: { id } })] for the id of the candidacy just read; a
    candidacy is identified here by its unique (donationId, userId) key. *)
Definition delete (c : Candidacy) : M unit :=
  let* l := gets candidacies in
  if bool_decide (c ∈ l)
  then modify (set_candidacies (filter (λ c', c' ≠ c)))
  else throw P2025.

Definition deleteAllByDonation (donationId : string) : M nat :=
  let* l := gets candidacies in
  modify (set_candidacies (filter (λ c, c_donationId c ≠ donationId)));;;
  ret (length (filter (λ c, c_donationId c = donationId) l)).

(** [orderBy: { createdAt: "desc" }]: the user's candidacies, newest first. *)
Definition findByUser (userId : string) : M (list Candidacy) :=
  gets (λ s, reverse (filter (λ c, c_userId c = userId) (candidacies s))).

(** [delete] on the compound key; P2025 when there is no such candidacy. *)
Definition deleteByDonationAndUser (donationId userId : string) : M unit :=
  let* existing := findByDonationAndUser donationId userId in
  match existing with
  | None => throw P2025
  | Some _ =>
      modify (set_candidacies (filter (λ c, ¬ is_pair donationId userId c)))
  end.

Definition countByDonation (donationId : string) : M nat :=
  gets (λ s, length (filter (λ c, c_donationId c = donationId) (candidacies s))).

(** [count({ where: { donationId, userId } }) > 0] *)
Definition hasCandidacy (donationId userId : string) : M bool :=
  let* count :=
    gets (λ s, length (filter (is_pair donationId userId) (candidacies s))) in
  ret (bool_decide (0 < count)).

End CandidacyRepository.

(** ** donation-progress.repository.ts *)

Module DonationProgressRepository.

(** Modelled from the spec: the Prisma schema that declares the defaults of
    the seven flags is not among the sources; a Progress record is "created
    (all flags false)", and the repository's own comment says the same. *)
Definition initial_progress : DonationProgress :=
  {| pickupConfirmedByDonor := false; pickupConfirmedByReceiver := false;
     completionConfirmedByDonor := false; completionConfirmedByReceiver := false;
     returnSignaledByReceiver := false; returnConfirmedByDonor := false;
     returnConfirmedByReceiver := false |}.

(** [donationId] is unique in the collection: a second record for the same
    donation is rejected with P2002. *)
Definition create (donationId : string) : M DonationProgress :=
  let* ps := gets progress in
  match ps !! donationId with
  | Some _ => throw P2002
  | None =>
      modify (set_progress (insert donationId initial_progress));;;
      ret initial_progress
  end.

Definition findByDonation (donationId : string) : M (option DonationProgress) :=
  gets (λ s, progress s !! donationId).

(** Prisma writes the fields that are present in [data] and keeps the rest. *)
Definition apply_partial (data : ProgressPartial) (p : DonationProgress)
  : DonationProgress :=
  {| pickupConfirmedByDonor :=
       nullish (p_pickupConfirmedByDonor data) (pickupConfirmedByDonor p);
     pickupConfirmedByReceiver :=
       nullish (p_pickupConfirmedByReceiver data) (pickupConfirmedByReceiver p);
     completionConfirmedByDonor :=
       nullish (p_completionConfirmedByDonor data) (completionConfirmedByDonor p);
     completionConfirmedByReceiver :=
       nullish (p_completionConfirmedByReceiver data) (completionConfirmedByReceiver p);
     returnSignaledByReceiver :=
       nullish (p_returnSignaledByReceiver data) (returnSignaledByReceiver p);
     returnConfirmedByDonor :=
       nullish (p_returnConfirmedByDonor data) (returnConfirmedByDonor p);
     returnConfirmedByReceiver :=
       nullish (p_returnConfirmedByReceiver data) (returnConfirmedByReceiver p) |}.

Definition update (donationId : string) (data : ProgressPartial) : M DonationProgress :=
  let* ps := gets progress in
  match ps !! donationId with
  | None => throw P2025
  | Some p =>
      modify (set_progress (insert donationId (apply_partial data p)));;;
      ret (apply_partial data p)
  end.

Definition delete (donationId : string) : M unit :=
  let* ps := gets progress in
  match ps !! donationId with
  | None => throw P2025
  | Some _ => modify (set_progress (base.delete donationId))
  end.

Definition isPickupConfirmed (donationId : string) : M bool :=
  let* p := findByDonation donationId in
  match p with
  | None => ret false
  | Some p => ret (pickupConfirmedByDonor p && pickupConfirmedByReceiver p)
  end.

Definition isCompletionConfirmed (donationId : string) : M bool :=
  let* p := findByDonation donationId in
  match p with
  | None => ret false
  | Some p => ret (completionConfirmedByDonor p && completionConfirmedByReceiver p)
  end.

Definition isReturnCompleted (donationId : string) : M bool :=
  let* p := findByDonation donationId in
  match p with
  | None => ret false
  | Some p =>
      ret (returnSignaledByReceiver p && returnConfirmedByDonor p
           && returnConfirmedByReceiver p)
  end.

Definition canSignalReturn (donationId : string) : M bool :=
  let* p := findByDonation donationId in
  match p with
  | None => ret false
  | Some p => ret (pickupConfirmedByDonor p && pickupConfirmedByReceiver p)
  end.

(** The object literal [{ returnSignaledByReceiver: true }]. *)
Definition only_returnSignaledByReceiver (b : bool) : ProgressPartial :=
  {| p_pickupConfirmedByDonor := None; p_pickupConfirmedByReceiver := None;
     p_completionConfirmedByDonor := None; p_completionConfirmedByReceiver := None;
     p_returnSignaledByReceiver := Some b; p_returnConfirmedByDonor := None;
     p_returnConfirmedByReceiver := None |}.

(** [{ returnConfirmedByDonor: true }] *)
Definition only_returnConfirmedByDonor (b : bool) : ProgressPartial :=
  {| p_pickupConfirmedByDonor := None; p_pickupConfirmedByReceiver := None;
     p_completionConfirmedByDonor := None; p_completionConfirmedByReceiver := None;
     p_returnSignaledByReceiver := None; p_returnConfirmedByDonor := Some b;
     p_returnConfirmedByReceiver := None |}.

(** [{ returnConfirmedByReceiver: true }] *)
Definition only_returnConfirmedByReceiver (b : bool) : ProgressPartial :=
  {| p_pickupConfirmedByDonor := None; p_pickupConfirmedByReceiver := None;
     p_completionConfirmedByDonor := None; p_completionConfirmedByReceiver := None;
     p_returnSignaledByReceiver := None; p_returnConfirmedByDonor := None;
     p_returnConfirmedByReceiver := Some b |}.

(** The service hands its six-flag [updates] object to [update] as it is:
    the key [returnSignaledByReceiver] is never in it. *)
Definition of_updates (u : ProgressUpdates) : ProgressPartial :=
  {| p_pickupConfirmedByDonor := up_pickupConfirmedByDonor u;
     p_pickupConfirmedByReceiver := up_pickupConfirmedByReceiver u;
     p_completionConfirmedByDonor := up_completionConfirmedByDonor u;
     p_completionConfirmedByReceiver := up_completionConfirmedByReceiver u;
     p_returnSignaledByReceiver := None;
     p_returnConfirmedByDonor := up_returnConfirmedByDonor u;
     p_returnConfirmedByReceiver := up_returnConfirmedByReceiver u |}.

(** [{ returnSignaledByReceiver: false, returnConfirmedByDonor: false,
      returnConfirmedByReceiver: false }] *)
Definition resetReturnProcess (donationId : string) : M DonationProgress :=
  update donationId
    {| p_pickupConfirmedByDonor := None; p_pickupConfirmedByReceiver := None;
       p_completionConfirmedByDonor := None; p_completionConfirmedByReceiver := None;
       p_returnSignaledByReceiver := Some false; p_returnConfirmedByDonor := Some false;
       p_returnConfirmedByReceiver := Some false |}.

(** All seven flags set to false. *)
Definition resetAll (donationId : string) : M DonationProgress :=
  update donationId
    {| p_pickupConfirmedByDonor := Some false; p_pickupConfirmedByReceiver := Some false;
       p_completionConfirmedByDonor := Some false;
       p_completionConfirmedByReceiver := Some false;
       p_returnSignaledByReceiver := Some false; p_returnConfirmedByDonor := Some false;
       p_returnConfirmedByReceiver := Some false |}.

Definition canConfirmCompletion (donationId : string) : M bool :=
  let* p := findByDonation donationId in
  match p with
  | None => ret false
  | Some p => ret (pickupConfirmedByDonor p && pickupConfirmedByReceiver p)
  end.

(** What [getProgressSummary] returns; [summary_progress] is the [progress]
    key, which is there only when a record was found. *)
Record ProgressSummary := {
  hasProgress : bool;
  pickupConfirmed : bool;
  completionConfirmed : bool;
  returnInProgress : bool;
  returnCompleted : bool;
  summary_progress : option DonationProgress
}.

Definition getProgressSummary (donationId : string) : M ProgressSummary :=
  let* p := findByDonation donationId in
  match p with
  | None =>
      ret {| hasProgress := false; pickupConfirmed := false;
             completionConfirmed := false; returnInProgress := false;
             returnCompleted := false; summary_progress := None |}
  | Some p =>
      ret {| hasProgress := true;
             pickupConfirmed :=
               pickupConfirmedByDonor p && pickupConfirmedByReceiver p;
             completionConfirmed :=
               completionConfirmedByDonor p && completionConfirmedByReceiver p;
             returnInProgress := returnSignaledByReceiver p;
             returnCompleted :=
               returnSignaledByReceiver p && returnConfirmedByDonor p
               && returnConfirmedByReceiver p;
             summary_progress := Some p |}
  end.

End DonationProgressRepository.

(** user.repository.ts, [findById], as far as the donation service uses it:
    does the user exist? *)
Module UserRepository.
Definition findById (userId : string) : M bool :=
  gets (λ s, bool_decide (userId ∈ users s)).
End UserRepository.

(** ** donation.service.ts *)

(** [if (cond) { throw ... }] *)
Definition throw_if (cond : bool) (e : Failure) : M unit :=
  if cond then throw e else ret tt.

(** [if (cond) { await action }] *)
Definition when {A} (cond : bool) (action : M A) : M unit :=
  if cond then (action;;; ret tt) else ret tt.

Definition js_opt_string (x : option string) : jsval :=
  match x with Some s => JString s | None => JNull end.

(** The scalar fields of a Donation document, seen as a JavaScript object. *)
Definition donation_obj (d : Donation) : gmap string jsval :=
  list_to_map
    [ ("id", JString (id d));
      ("sequentialId", JNumber (sequentialId d));
      ("title", JString (title (content d)));
      ("description", JString (description (content d)));
      ("pickupType", JString (pickupType (content d)));
      ("postalCode", JString (postalCode (content d)));
      ("street", JString (street (content d)));
      ("locationNumber", JString (locationNumber (content d)));
      ("neighborhood", JString (neighborhood (content d)));
      ("city", JString (city (content d)));
      ("state", JString (state (content d)));
      ("category", JString (category (content d)));
      ("status", JString (status_name (status d)));
      ("donorId", JString (donorId d));
      ("receiverId", js_opt_string (receiverId d));
      ("returnReason", js_opt_string (returnReason d)) ].

(** An [UpdateDonationData] object: the keys that were given. *)
Definition update_obj (data : UpdateDonationData) : gmap string jsval :=
  list_to_map
    (omap (λ kv : string * option string, (λ s, (kv.1, JString s)) <$> kv.2)
       [ ("title", u_title data);
         ("description", u_description data);
         ("pickupType", u_pickupType data);
         ("postalCode", u_postalCode data);
         ("street", u_street data);
         ("locationNumber", u_locationNumber data);
         ("neighborhood", u_neighborhood data);
         ("city", u_city data);
         ("state", u_state data);
         ("category", u_category data) ]).

(** What [getDonation] returns: the donation, with a [progress] key when the
    donation has a receiver. *)
Inductive DonationDetails :=
| Plain (d : Donation)
| WithProgress (d : Donation) (p : option DonationProgress).

(** The two messages of [confirmReturn]. *)
Inductive ConfirmReturnMessage :=
| ReturnConfirmedDonationAvailable
| ConfirmationRegisteredWaiting.

Module DonationService.

Definition createDonation (newId donorId : string) (data : CreateDonationData)
  : M Donation :=
  let* userExists := UserRepository.findById donorId in
  throw_if (negb userExists) (AppError NotFoundError);;;
  DonationRepository.create newId donorId data.

Definition getDonation (donationId : string) : M DonationDetails :=
  let* donation := DonationRepository.findById donationId in
  match donation with
  | None => throw (AppError NotFoundError)
  | Some donation =>
      if truthy_id (receiverId donation)
      then let* p := DonationProgressRepository.findByDonation donationId in
           ret (WithProgress donation p)
      else ret (Plain donation)
  end.

Definition updateDonation (donationId userId : string) (data : UpdateDonationData)
  : M Donation :=
  let* donation := DonationRepository.findById donationId in
  match donation with
  | None => throw (AppError NotFoundError)
  | Some donation =>
      throw_if (bool_decide (donorId donation ≠ userId)) (AppError ForbiddenError);;;
      throw_if (bool_decide (status donation ≠ OPEN)) (AppError ValidationError);;;
      let changed := getObjectDifferences (donation_obj donation) (update_obj data) in
      if bool_decide (keys_length changed = 0)
      then ret donation
      else
        let* updatedDonation := DonationRepository.update donationId data in
        DonationRepository.saveDonationEditHistory donationId changed;;;
        ret updatedDonation
  end.

Definition deleteDonation (donationId userId : string) : M unit :=
  let* donation := DonationRepository.findById donationId in
  match donation with
  | None => throw (AppError NotFoundError)
  | Some donation =>
      throw_if (bool_decide (donorId donation ≠ userId)) (AppError ForbiddenError);;;
      throw_if (bool_decide (status donation ≠ OPEN)) (AppError ValidationError);;;
      DonationRepository.delete donationId
  end.

Definition getDonationEditHistory (donationId : string)
  : M (list DonationEditHistory) :=
  let* donation := DonationRepository.findById donationId in
  match donation with
  | None => throw (AppError NotFoundError)
  | Some _ => DonationRepository.getDonationEditHistory donationId
  end.

Definition applyForDonation (donationId userId : string) : M Candidacy :=
  let* donation := DonationRepository.findById donationId in
  match donation with
  | None => throw (AppError NotFoundError)
  | Some donation =>
      throw_if (bool_decide (donorId donation = userId)) (AppError ValidationError);;;
      throw_if (bool_decide (status donation ≠ OPEN)) (AppError ValidationError);;;
      let* existingCandidacy :=
        CandidacyRepository.findByDonationAndUser donationId userId in
      throw_if (defined existingCandidacy) (AppError ValidationError);;;
      CandidacyRepository.create donationId userId
  end.

Definition getDonationCandidates (donationId requestingUserId : string)
  : M (list Candidacy) :=
  let* donation := DonationRepository.findById donationId in
  match donation with
  | None => throw (AppError NotFoundError)
  | Some donation =>
      throw_if (bool_decide (donorId donation ≠ requestingUserId))
        (AppError ForbiddenError);;;
      CandidacyRepository.findByDonation donationId
  end.

Definition withdrawCandidacy (donationId userId : string) : M unit :=
  let* donation := DonationRepository.findById donationId in
  match donation with
  | None => throw (AppError NotFoundError)
  | Some donation =>
      let* candidacy := CandidacyRepository.findByDonationAndUser donationId userId in
      match candidacy with
      | None => throw (AppError NotFoundError)
      | Some candidacy =>
          if bool_decide (status donation = OPEN)
          then CandidacyRepository.delete candidacy
          else
            throw_if (bool_decide (status donation = IN_PROGRESS)
                      && bool_decide (receiverId donation = Some userId))
              (AppError ValidationError);;;
            throw (AppError ValidationError)
      end
  end.

Definition chooseReceiver (donationId receiver donor : string) : M Donation :=
  let* donation := DonationRepository.findById donationId in
  match donation with
  | None => throw (AppError NotFoundError)
  | Some donation =>
      throw_if (bool_decide (donorId donation ≠ donor)) (AppError ForbiddenError);;;
      throw_if (bool_decide (status donation ≠ OPEN)) (AppError ValidationError);;;
      let* candidacy := CandidacyRepository.findByDonationAndUser donationId receiver in
      throw_if (negb (defined candidacy)) (AppError ValidationError);;;
      let* updatedDonation := DonationRepository.setReceiver donationId receiver in
      DonationProgressRepository.create donationId;;;
      CandidacyRepository.deleteAllByDonation donationId;;;
      ret updatedDonation
  end.

Definition cancelReceiving (donationId userId : string) : M unit :=
  let* donation := DonationRepository.findById donationId in
  match donation with
  | None => throw (AppError NotFoundError)
  | Some donation =>
      throw_if (bool_decide (receiverId donation ≠ Some userId))
        (AppError ForbiddenError);;;
      throw_if (bool_decide (status donation ≠ IN_PROGRESS))
        (AppError ValidationError);;;
      DonationRepository.removeReceiver donationId;;;
      DonationProgressRepository.delete donationId
  end.

Definition updateProgress (donationId userId : string) (updates : ProgressUpdates)
  : M DonationDetails :=
  let* donation := DonationRepository.findById donationId in
  match donation with
  | None => throw (AppError NotFoundError)
  | Some donation =>
      throw_if (negb (truthy_id (receiverId donation))) (AppError ValidationError);;;
      let* p := DonationProgressRepository.findByDonation donationId in
      match p with
      | None => throw (AppError ValidationError)
      | Some p =>
          let isDonor := bool_decide (donorId donation = userId) in
          let isReceiver := bool_decide (receiverId donation = Some userId) in
          throw_if (negb isDonor && negb isReceiver) (AppError ForbiddenError);;;
          throw_if (isDonor &&
                    (defined (up_pickupConfirmedByReceiver updates)
                     || defined (up_completionConfirmedByReceiver updates)
                     || defined (up_returnConfirmedByReceiver updates)))
            (AppError ForbiddenError);;;
          throw_if (isReceiver &&
                    (defined (up_pickupConfirmedByDonor updates)
                     || defined (up_completionConfirmedByDonor updates)
                     || defined (up_returnConfirmedByDonor updates)))
            (AppError ForbiddenError);;;
          let pickupConfirmed :=
            nullish (up_pickupConfirmedByDonor updates) (pickupConfirmedByDonor p)
            && nullish (up_pickupConfirmedByReceiver updates)
                 (pickupConfirmedByReceiver p) in
          throw_if ((truthy_flag (up_completionConfirmedByDonor updates)
                     || truthy_flag (up_completionConfirmedByReceiver updates))
                    && negb pickupConfirmed)
            (AppError ValidationError);;;
          throw_if (truthy_flag (up_returnConfirmedByReceiver updates)
                    && negb pickupConfirmed)
            (AppError ValidationError);;;
          let* updatedProgress :=
            DonationProgressRepository.update donationId
              (DonationProgressRepository.of_updates updates) in
          when (pickupConfirmedByDonor updatedProgress
                && pickupConfirmedByReceiver updatedProgress
                && bool_decide (status donation = IN_PROGRESS))
            (DonationRepository.updateStatus donationId PICKED_UP);;;
          when (completionConfirmedByDonor updatedProgress
                && completionConfirmedByReceiver updatedProgress
                && bool_decide (status donation ≠ COMPLETED))
            (DonationRepository.updateStatus donationId COMPLETED);;;
          getDonation donationId
      end
  end.

Definition signalReturn (donationId userId reason : string) : M unit :=
  let* donation := DonationRepository.findById donationId in
  match donation with
  | None => throw (AppError NotFoundError)
  | Some donation =>
      throw_if (bool_decide (receiverId donation ≠ Some userId))
        (AppError ForbiddenError);;;
      let* p := DonationProgressRepository.findByDonation donationId in
      throw_if (negb (defined p)) (AppError ValidationError);;;
      let* canReturn := DonationProgressRepository.canSignalReturn donationId in
      throw_if (negb canReturn) (AppError ValidationError);;;
      DonationProgressRepository.update donationId
        (DonationProgressRepository.only_returnSignaledByReceiver true);;;
      DonationRepository.updateReturnReason donationId reason;;;
      ret tt
  end.

Definition confirmReturn (donationId userId : string) : M ConfirmReturnMessage :=
  let* donation := DonationRepository.findById donationId in
  match donation with
  | None => throw (AppError NotFoundError)
  | Some donation =>
      let isDonor := bool_decide (donorId donation = userId) in
      let isReceiver := bool_decide (receiverId donation = Some userId) in
      throw_if (negb isDonor && negb isReceiver) (AppError ForbiddenError);;;
      let* p := DonationProgressRepository.findByDonation donationId in
      match p with
      | None => throw (AppError ValidationError)
      | Some p =>
          throw_if (negb (returnSignaledByReceiver p)) (AppError ValidationError);;;
          (if isDonor
           then DonationProgressRepository.update donationId
                  (DonationProgressRepository.only_returnConfirmedByDonor true)
           else DonationProgressRepository.update donationId
                  (DonationProgressRepository.only_returnConfirmedByReceiver true));;;
          let* isReturnCompleted :=
            DonationProgressRepository.isReturnCompleted donationId in
          if isReturnCompleted
          then
            DonationRepository.removeReceiver donationId;;;
            DonationProgressRepository.delete donationId;;;
            ret ReturnConfirmedDonationAvailable
          else ret ConfirmationRegisteredWaiting
      end
  end.

Definition getMyCandidacies (userId : string) : M (list Candidacy) :=
  CandidacyRepository.findByUser userId.

(** [{ donation, ...summary }] *)
Definition getProgress (donationId userId : string)
  : M (Donation * DonationProgressRepository.ProgressSummary) :=
  let* donation := DonationRepository.findById donationId in
  match donation with
  | None => throw (AppError NotFoundError)
  | Some donation =>
      let isDonor := bool_decide (donorId donation = userId) in
      let isReceiver := bool_decide (receiverId donation = Some userId) in
      throw_if (negb isDonor && negb isReceiver) (AppError ForbiddenError);;;
      let* summary := DonationProgressRepository.getProgressSummary donationId in
      ret (donation, summary)
  end.

End DonationService.

(** ** Requests and reachable stores *)

(** The state-changing entry points of the engine. [ReqCreateDonation] carries
    the identifier that the database assigns to the new document. *)
Inductive Request :=
| ReqCreateDonation (newId donorId : string) (data : CreateDonationData)
| ReqUpdateDonation (donationId userId : string) (data : UpdateDonationData)
| ReqDeleteDonation (donationId userId : string)
| ReqApplyForDonation (donationId userId : string)
| ReqWithdrawCandidacy (donationId userId : string)
| ReqChooseReceiver (donationId receiver donor : string)
| ReqCancelReceiving (donationId userId : string)
| ReqUpdateProgress (donationId userId : string) (updates : ProgressUpdates)
| ReqSignalReturn (donationId userId reason : string)
| ReqConfirmReturn (donationId userId : string).

(** The store that a request leaves behind, whether it succeeds or throws. *)
Definition handle (r : Request) (s : Store) : Store :=
  match r with
  | ReqCreateDonation n u data => (DonationService.createDonation n u data s).2
  | ReqUpdateDonation d u data => (DonationService.updateDonation d u data s).2
  | ReqDeleteDonation d u => (DonationService.deleteDonation d u s).2
  | ReqApplyForDonation d u => (DonationService.applyForDonation d u s).2
  | ReqWithdrawCandidacy d u => (DonationService.withdrawCandidacy d u s).2
  | ReqChooseReceiver d r u => (DonationService.chooseReceiver d r u s).2
  | ReqCancelReceiving d u => (DonationService.cancelReceiving d u s).2
  | ReqUpdateProgress d u up => (DonationService.updateProgress d u up s).2
  | ReqSignalReturn d u reason => (DonationService.signalReturn d u reason s).2
  | ReqConfirmReturn d u => (DonationService.confirmReturn d u s).2
  end.

Definition run (rs : list Request) (s : Store) : Store :=
  foldl (λ s r, handle r s) s rs.

(** The stores that the engine's operations can produce, starting from a
    database with users and nothing else. *)
Inductive reachable : Store → Prop :=
| reachable_empty us : reachable (empty_store us)
| reachable_handle r s : reachable s → reachable (handle r s).

(** ** Scenarios used as concrete inputs *)

Module Scenario.

Definition chair : CreateDonationData :=
  {| title := "Wooden chair"; description := "A chair in good condition";
     pickupType := "ARRANGE_WITH_DONOR"; postalCode := "30130-000";
     street := "Rua da Bahia"; locationNumber := "100"; neighborhood := "Centro";
     city := "Belo Horizonte"; state := "MG"; category := "FURNITURE" |}.

Definition people : gset string := {[ "alice"; "bob"; "carol" ]}.

(** [{ pickupConfirmedByDonor: true }] and its five siblings *)
Definition pickup_by_donor : ProgressUpdates :=
  {| up_pickupConfirmedByDonor := Some true; up_pickupConfirmedByReceiver := None;
     up_completionConfirmedByDonor := None; up_completionConfirmedByReceiver := None;
     up_returnConfirmedByDonor := None; up_returnConfirmedByReceiver := None |}.
Definition pickup_by_receiver : ProgressUpdates :=
  {| up_pickupConfirmedByDonor := None; up_pickupConfirmedByReceiver := Some true;
     up_completionConfirmedByDonor := None; up_completionConfirmedByReceiver := None;
     up_returnConfirmedByDonor := None; up_returnConfirmedByReceiver := None |}.
Definition completion_by_donor : ProgressUpdates :=
  {| up_pickupConfirmedByDonor := None; up_pickupConfirmedByReceiver := None;
     up_completionConfirmedByDonor := Some true; up_completionConfirmedByReceiver := None;
     up_returnConfirmedByDonor := None; up_returnConfirmedByReceiver := None |}.
Definition completion_by_receiver : ProgressUpdates :=
  {| up_pickupConfirmedByDonor := None; up_pickupConfirmedByReceiver := None;
     up_completionConfirmedByDonor := None; up_completionConfirmedByReceiver := Some true;
     up_returnConfirmedByDonor := None; up_returnConfirmedByReceiver := None |}.
Definition return_confirmed_by_donor : ProgressUpdates :=
  {| up_pickupConfirmedByDonor := None; up_pickupConfirmedByReceiver := None;
     up_completionConfirmedByDonor := None; up_completionConfirmedByReceiver := None;
     up_returnConfirmedByDonor := Some true; up_returnConfirmedByReceiver := None |}.
Definition return_confirmed_by_receiver : ProgressUpdates :=
  {| up_pickupConfirmedByDonor := None; up_pickupConfirmedByReceiver := None;
     up_completionConfirmedByDonor := None; up_completionConfirmedByReceiver := None;
     up_returnConfirmedByDonor := None; up_returnConfirmedByReceiver := Some true |}.

(** alice offers a chair; bob and carol apply. *)
Definition offered : list Request :=
  [ ReqCreateDonation "d1" "alice" chair;
    ReqApplyForDonation "d1" "bob";
    ReqApplyForDonation "d1" "carol" ].

(** alice chooses bob. *)
Definition chosen : list Request :=
  offered ++ [ ReqChooseReceiver "d1" "bob" "alice" ].

(** both confirm the pickup. *)
Definition picked_up : list Request :=
  chosen ++ [ ReqUpdateProgress "d1" "alice" pickup_by_donor;
              ReqUpdateProgress "d1" "bob" pickup_by_receiver ].

(** both confirm the completion. *)
Definition completed : list Request :=
  picked_up ++ [ ReqUpdateProgress "d1" "alice" completion_by_donor;
                 ReqUpdateProgress "d1" "bob" completion_by_receiver ].

(** bob asks to give the chair back. *)
Definition return_signaled : list Request :=
  picked_up ++ [ ReqSignalReturn "d1" "bob" "item damaged" ].

Definition store_after (rs : list Request) : Store := run rs (empty_store people).

Definition chair_of (st : DonationStatus) (receiver reason : option string) : Donation :=
  {| id := "d1"; sequentialId := 1; content := chair; status := st;
     donorId := "alice"; receiverId := receiver; returnReason := reason |}.

End Scenario.

(** ** Properties of stores and requests *)

(** What holds of one donation identifier in every reachable store: a
    donation has no receiver exactly when it is OPEN, and a Progress record
    belongs to a donation that is not OPEN. *)
Definition key_ok (od : option Donation) (op : option DonationProgress) : Prop :=
  match od with
  | Some d => (receiverId d = None ↔ status d = OPEN) ∧ (is_Some op → status d ≠ OPEN)
  | None => op = None
  end.

Definition consistent (s : Store) : Prop :=
  ∀ k, key_ok (donations s !! k) (progress s !! k).

(** The donation a request is about. *)
Definition target (r : Request) : string :=
  match r with
  | ReqCreateDonation i _ _ | ReqUpdateDonation i _ _ | ReqDeleteDonation i _
  | ReqApplyForDonation i _ | ReqWithdrawCandidacy i _ | ReqChooseReceiver i _ _
  | ReqCancelReceiving i _ | ReqUpdateProgress i _ _ | ReqSignalReturn i _ _
  | ReqConfirmReturn i _ => i
  end.

(** The receiver invariant in the specification's words: a receiver is set
    exactly while the donation is IN_PROGRESS or PICKED_UP. *)
Definition receiver_iff_in_progress_or_picked_up (s : Store) : Prop :=
  ∀ k d, donations s !! k = Some d →
    (receiverId d ≠ None ↔ status d = IN_PROGRESS ∨ status d = PICKED_UP).

(** The same with COMPLETED on the right: what [updateStatus] leaves behind. *)
Definition receiver_iff_not_open (s : Store) : Prop :=
  ∀ k d, donations s !! k = Some d →
    (receiverId d ≠ None ↔
     status d = IN_PROGRESS ∨ status d = PICKED_UP ∨ status d = COMPLETED).

(** The user [u] has an active candidacy for the donation [i]. *)
Definition has_candidacy (s : Store) (i u : string) : Prop :=
  {| c_donationId := i; c_userId := u |} ∈ candidacies s.

(** The request names a flag of the receiver's half (a key that is present,
    whatever its value). *)
Definition requests_receiver_half (u : ProgressUpdates) : Prop :=
  is_Some (up_pickupConfirmedByReceiver u)
  ∨ is_Some (up_completionConfirmedByReceiver u)
  ∨ is_Some (up_returnConfirmedByReceiver u).

(** The request names a flag of the donor's half. *)
Definition requests_donor_half (u : ProgressUpdates) : Prop :=
  is_Some (up_pickupConfirmedByDonor u)
  ∨ is_Some (up_completionConfirmedByDonor u)
  ∨ is_Some (up_returnConfirmedByDonor u).

(** The request [r] turns the flag of the Progress record of donation [k] on:
    the flag is true in the record that [r] leaves behind, and it was not true
    before (the record did not exist, or held false). *)
Definition becomes_true (flag : DonationProgress → bool) (r : Request) (s : Store)
    (k : string) : Prop :=
  (∀ p, progress s !! k = Some p → flag p = false)
  ∧ ∃ p', progress (handle r s) !! k = Some p' ∧ flag p' = true.

(** The donation [i] is back where a new donation starts: OPEN, without
    receiver, return reason or Progress record, and any user other than the
    donor who has no candidacy yet can apply. *)
Definition reopened (s : Store) (i : string) : Prop :=
  ∃ d', donations s !! i = Some d'
    ∧ status d' = OPEN
    ∧ receiverId d' = None
    ∧ returnReason d' = None
    ∧ progress s !! i = None
    ∧ ∀ u, u ≠ donorId d' → ¬ has_candidacy s i u →
        DonationService.applyForDonation i u s
        = (Ok {| c_donationId := i; c_userId := u |},
           set_candidacies (λ l, l ++ [{| c_donationId := i; c_userId := u |}]) s).

(** The store after the last of the two return confirmations. *)
Definition return_completed_store (i : string) (d : Donation) (s : Store) : Store :=
  set_progress (delete i)
    (set_donations (insert i (DonationRepository.without_receiver d)) s).

(** The Progress record of the scenario [Scenario.return_signaled]. *)
Definition return_signaled_progress : DonationProgress :=
  {| pickupConfirmedByDonor := true; pickupConfirmedByReceiver := true;
     completionConfirmedByDonor := false; completionConfirmedByReceiver := false;
     returnSignaledByReceiver := true; returnConfirmedByDonor := false;
     returnConfirmedByReceiver := false |}.

(** The entry that the diff records for a changed key. *)
Definition change_of (oldObj : gmap string jsval) (key : string) (v : jsval) : FieldChange :=
  {| oldValue := js_get oldObj key; newValue := v |}.

(** [{ title: t }]: an update of the title alone. *)
Definition only_title (t : string) : UpdateDonationData :=
  {| u_title := Some t; u_description := None; u_pickupType := None;
     u_postalCode := None; u_street := None; u_locationNumber := None;
     u_neighborhood := None; u_city := None; u_state := None; u_category := None |}.

(** The return-confirmation flag that [confirmReturn] writes for the user [u]
    on the donation [d]: the donor's for the donor, the receiver's otherwise. *)
Definition own_return_flag (d : Donation) (u : string) (p : DonationProgress) : bool :=
  if bool_decide (donorId d = u)
  then returnConfirmedByDonor p
  else returnConfirmedByReceiver p.

(** Who is who, in every reachable store: a candidacy belongs to an existing
    donation and is never the donor's own, and the receiver of a donation is
    never its donor. *)
Definition parties_ok (s : Store) : Prop :=
  (∀ c, c ∈ candidacies s →
        ∃ d, donations s !! c_donationId c = Some d ∧ donorId d ≠ c_userId c)
  ∧ (∀ k d, donations s !! k = Some d → receiverId d ≠ Some (donorId d)).

(** ** Further properties of reachable stores *)

(** Candidacies in a reachable store: no pair (donation, applicant) twice,
    and every candidacy is for an existing donation that is OPEN and whose
    donor is someone else. *)
Definition candidacies_ok (s : Store) : Prop :=
  NoDup (candidacies s)
  ∧ ∀ c, c ∈ candidacies s →
      ∃ d, donations s !! c_donationId c = Some d
           ∧ status d = OPEN
           ∧ donorId d ≠ c_userId c.

(** A donation that is not OPEN has its Progress record. *)
Definition progress_present (s : Store) : Prop :=
  ∀ k d, donations s !! k = Some d → status d ≠ OPEN → is_Some (progress s !! k).

(** The error a result carries, if any. *)
Definition failure_of {A} (x : Result A) : option Failure :=
  match x with
  | Ok _ => None
  | Err e => Some e
  end.

(** How the service method behind a request ends: [None] when it returns,
    the error when it throws. *)
Definition outcome (r : Request) (s : Store) : option Failure :=
  match r with
  | ReqCreateDonation n u data =>
      failure_of (DonationService.createDonation n u data s).1
  | ReqUpdateDonation d u data =>
      failure_of (DonationService.updateDonation d u data s).1
  | ReqDeleteDonation d u => failure_of (DonationService.deleteDonation d u s).1
  | ReqApplyForDonation d u => failure_of (DonationService.applyForDonation d u s).1
  | ReqWithdrawCandidacy d u => failure_of (DonationService.withdrawCandidacy d u s).1
  | ReqChooseReceiver d r u => failure_of (DonationService.chooseReceiver d r u s).1
  | ReqCancelReceiving d u => failure_of (DonationService.cancelReceiving d u s).1
  | ReqUpdateProgress d u up => failure_of (DonationService.updateProgress d u up s).1
  | ReqSignalReturn d u reason =>
      failure_of (DonationService.signalReturn d u reason s).1
  | ReqConfirmReturn d u => failure_of (DonationService.confirmReturn d u s).1
  end.

(** The only error of the store that a request meets: the identifier handed
    to a creation is taken already. *)
Definition at_most_id_clash (r : Request) (s : Store) : Prop :=
  match outcome r s with
  | Some P2025 => False
  | Some P2002 =>
      ∃ n u data, r = ReqCreateDonation n u data ∧ is_Some (donations s !! n)
  | _ => True
  end.

#[global] Instance has_candidacy_dec s i u : Decision (has_candidacy s i u).
Proof. unfold has_candidacy. apply _. Defined.

(** Sequential numbers in a reachable store: the counter, once created, is at
    least 1; every donation is stored under its own identifier and carries a
    number between 1 and the counter; no two donations carry the same
    number. *)
Definition sequential_ok (s : Store) : Prop :=
  (∀ n, counter s = Some n → (1 ≤ n)%Z)
  ∧ (∀ k d, donations s !! k = Some d →
       id d = k ∧ ∃ n, counter s = Some n ∧ (1 ≤ sequentialId d ≤ n)%Z)
  ∧ (∀ k1 k2 d1 d2,
       donations s !! k1 = Some d1 → donations s !! k2 = Some d2 →
       sequentialId d1 = sequentialId d2 → k1 = k2).

(** The place of a status in the lifecycle. *)
Definition status_rank (st : DonationStatus) : nat :=
  match st with
  | OPEN => 0
  | IN_PROGRESS => 1
  | PICKED_UP => 2
  | COMPLETED => 3
  end.

(** Both pickup confirmations, and both completion confirmations. *)
Definition pickup_confirmed (p : DonationProgress) : Prop :=
  pickupConfirmedByDonor p = true ∧ pickupConfirmedByReceiver p = true.

Definition completion_confirmed (p : DonationProgress) : Prop :=
  completionConfirmedByDonor p = true ∧ completionConfirmedByReceiver p = true.

(** [{ pickupConfirmedByDonor: false }]: the donor takes the pickup
    confirmation back. *)
Definition unconfirm_pickup_by_donor : ProgressUpdates :=
  {| up_pickupConfirmedByDonor := Some false; up_pickupConfirmedByReceiver := None;
     up_completionConfirmedByDonor := None; up_completionConfirmedByReceiver := None;
     up_returnConfirmedByDonor := None; up_returnConfirmedByReceiver := None |}.

(** The flags of a Progress record against the status of its donation, in a
    reachable store: two pickup confirmations mean PICKED_UP or COMPLETED, two
    completion confirmations mean COMPLETED. *)
Definition flags_ok (s : Store) : Prop :=
  ∀ k d p, donations s !! k = Some d → progress s !! k = Some p →
    (pickup_confirmed p → status d = PICKED_UP ∨ status d = COMPLETED)
    ∧ (completion_confirmed p → status d = COMPLETED).

(** The keys of an [UpdateDonationData] object. *)
Definition content_keys : list string :=
  [ "title"; "description"; "pickupType"; "postalCode"; "street";
    "locationNumber"; "neighborhood"; "city"; "state"; "category" ].

(** Edit histories in a reachable store: no entry is empty, and every change
    it records is of a content field, from one string to a different one. *)
Definition history_ok (s : Store) : Prop :=
  ∀ h, h ∈ editHistory s →
    changedFields h ≠ ∅
    ∧ ∀ key fc, changedFields h !! key = Some fc →
        key ∈ content_keys
        ∧ (∃ old new, oldValue fc = JString old ∧ newValue fc = JString new)
        ∧ oldValue fc ≠ newValue fc.

(** [{ title: t, city: c }] *)
Definition title_and_city (t c : string) : UpdateDonationData :=
  {| u_title := Some t; u_description := None; u_pickupType := None;
     u_postalCode := None; u_street := None; u_locationNumber := None;
     u_neighborhood := None; u_city := Some c; u_state := None; u_category := None |}.

(** Every character of the string is a digit. *)
Fixpoint all_digits (s : string) : bool :=
  match s with
  | EmptyString => true
  | String c rest => is_digit c && all_digits rest
  end.

(** A Progress record in which no return has been asked for. *)
Definition no_return_flags (p : DonationProgress) : Prop :=
  returnSignaledByReceiver p = false
  ∧ returnConfirmedByDonor p = false
  ∧ returnConfirmedByReceiver p = false.

(** The return reason against the return signal, in a reachable store: a
    donation carries a return reason exactly when its Progress record has
    [returnSignaledByReceiver] set. *)
Definition return_reason_ok (s : Store) : Prop :=
  ∀ k d, donations s !! k = Some d →
    is_Some (returnReason d)
    ↔ ∃ p, progress s !! k = Some p ∧ returnSignaledByReceiver p = true.

(** ** Proof infrastructure *)

Ltac unfold_repo :=
  unfold DonationRepository.create, DonationRepository.getNextSequentialId,
    DonationRepository.findById, DonationRepository.update,
    DonationRepository.delete, DonationRepository.saveDonationEditHistory,
    DonationRepository.updateStatus, DonationRepository.setReceiver,
    DonationRepository.removeReceiver, DonationRepository.updateReturnReason,
    DonationRepository.update_with, DonationRepository.cascade,
    CandidacyRepository.findByDonationAndUser, CandidacyRepository.create,
    CandidacyRepository.findByDonation, CandidacyRepository.delete,
    CandidacyRepository.deleteAllByDonation,
    DonationProgressRepository.create, DonationProgressRepository.findByDonation,
    DonationProgressRepository.update, DonationProgressRepository.delete,
    DonationProgressRepository.isReturnCompleted,
    DonationProgressRepository.canSignalReturn,
    UserRepository.findById in *.

Ltac unfold_monad :=
  unfold throw_if, when, bind, ret, throw, gets, modify,
    set_donations, set_candidacies, set_progress, set_editHistory, set_counter in *.

Ltac unfold_service :=
  unfold DonationService.createDonation, DonationService.updateDonation,
    DonationService.deleteDonation, DonationService.applyForDonation,
    DonationService.withdrawCandidacy, DonationService.chooseReceiver,
    DonationService.cancelReceiving, DonationService.updateProgress,
    DonationService.signalReturn, DonationService.confirmReturn,
    DonationService.getDonation in *.

(** Symbolic execution of a service method: unfold it down to the store, then
    follow every branch. *)
Ltac exec := unfold_service; unfold_repo; unfold_monad; simpl in *.

Ltac split_run :=
  repeat first
    [ rewrite lookup_insert_eq
    | rewrite lookup_delete_eq
    | progress simpl in *
    | case_match; simplify_eq/=;
      repeat match goal with
      | H : <[_:=_]> _ !! _ = _ |- _ => rewrite lookup_insert_eq in H; simplify_eq/=
      | H : delete _ _ !! _ = _ |- _ => rewrite lookup_delete_eq in H; simplify_eq/=
      end ].

Lemma truthy_id_Some x : truthy_id x = true → x ≠ None.
Proof. by destruct x. Qed.

Ltac bool_hyps :=
  repeat match goal with
  | H : negb _ = false |- _ => apply negb_false_iff in H
  | H : negb _ = true |- _ => apply negb_true_iff in H
  | H : _ && _ = true |- _ => apply andb_true_iff in H as [? ?]
  | H : _ || _ = false |- _ => apply orb_false_iff in H as [? ?]
  | H : bool_decide _ = true |- _ => apply bool_decide_eq_true in H
  | H : bool_decide _ = false |- _ => apply bool_decide_eq_false in H
  end.

Lemma reachable_run rs s : reachable s → reachable (run rs s).
Proof.
  revert s. induction rs as [|r rs IH]; intros s Hs; simpl; [done|].
  apply IH. by constructor.
Qed.

Lemma reachable_store_after rs : reachable (Scenario.store_after rs).
Proof. apply reachable_run. constructor. Qed.

Ltac frame_lookup :=
  repeat first [ rewrite lookup_insert_ne by done | rewrite lookup_delete_ne by done ].

(** A request leaves the documents of every other donation alone. *)
Lemma handle_frame r s k :
  k ≠ target r →
  donations (handle r s) !! k = donations s !! k
  ∧ progress (handle r s) !! k = progress s !! k.
Proof.
  intros Hk. destruct r; simpl in *; exec; split_run; frame_lookup; done.
Qed.

Ltac solve_key Hinv i :=
  let k := fresh "k" in
  let Hi := fresh "Hi" in
  intros k; simpl;
  destruct (decide (k = i)) as [->|?];
  [ pose proof (Hinv i) as Hi; revert Hi;
    repeat match goal with H : _ !! i = _ |- _ => rewrite H end;
    rewrite ?lookup_insert_eq, ?lookup_delete_eq; simpl
  | frame_lookup; apply Hinv ].

Lemma consistent_handle r s : consistent s → consistent (handle r s).
Proof.
  intros Hinv.
  destruct r as [i ? ?|i ? ?|i ?|i ?|i ?|i ? ?|i ?|i ? ?|i ? ?|i ?];
    simpl; exec; split_run; try done; bool_hyps.
  all: solve_key Hinv i.
  all: try (intros [? ?]; split; [ try done | eauto ]).
  all: try (split; intros; congruence).
  all: try (intros ->; split; [done | by intros [? ?]]).
  all: try (by intros [? ?]).
  all: match goal with H : truthy_id _ = true |- _ => apply truthy_id_Some in H end.
  all: split; done.
Qed.

Lemma reachable_consistent s : reachable s → consistent s.
Proof.
  induction 1 as [us|r s _ IH]; [|by apply consistent_handle].
  intros k. simpl. by rewrite !lookup_empty.
Qed.

(** *** Candidacy lists *)

Lemma head_filter_None {A} (P : A → Prop) `{!∀ x, Decision (P x)} (l : list A) :
  head (filter P l) = None ↔ ∀ x, x ∈ l → ¬ P x.
Proof.
  rewrite head_None. split.
  - intros Hnil x Hx HP.
    assert (x ∈ filter P l) as Hin by (by apply list_elem_of_filter).
    rewrite Hnil in Hin. by apply not_elem_of_nil in Hin.
  - intros Hall. destruct (filter P l) as [|x l'] eqn:Hf; [done|].
    assert (x ∈ filter P l) as Hin by (rewrite Hf; left).
    apply list_elem_of_filter in Hin as [HP Hx]. by destruct (Hall x Hx).
Qed.

Lemma find_candidacy_None s i u :
  head (filter (CandidacyRepository.is_pair i u) (candidacies s)) = None
  ↔ ¬ has_candidacy s i u.
Proof.
  rewrite head_filter_None. unfold has_candidacy, CandidacyRepository.is_pair.
  split.
  - intros Hall Hin. by apply (Hall _ Hin).
  - intros Hno [i' u'] Hin [? ?]; simpl in *; by subst.
Qed.

Lemma find_candidacy_Some s i u :
  has_candidacy s i u →
  defined (head (filter (CandidacyRepository.is_pair i u) (candidacies s))) = true.
Proof.
  intros Hc.
  destruct (head _) eqn:Hh; [done|].
  by apply find_candidacy_None in Hh.
Qed.

Lemma filter_other_donation_nil (l : list Candidacy) i :
  filter (λ c, c_donationId c = i) (filter (λ c, c_donationId c ≠ i) l) = [].
Proof.
  induction l as [|c l IH]; [done|].
  rewrite (filter_cons (λ c, c_donationId c ≠ i)).
  destruct (decide (c_donationId c ≠ i)) as [Hne|Heq]; [|done].
  rewrite filter_cons. by destruct (decide (c_donationId c = i)).
Qed.

(** *** Donor, candidates and receiver *)

Lemma head_filter_Some {A} (P : A → Prop) `{!∀ x, Decision (P x)} (l : list A) x :
  head (filter P l) = Some x → x ∈ l ∧ P x.
Proof.
  intros Hh.
  assert (x ∈ filter P l) as Hin.
  { destruct (filter P l); simplify_eq/=. left. }
  by apply list_elem_of_filter in Hin as [? ?].
Qed.

Ltac cand_in Hc :=
  first
    [ apply list_elem_of_filter in Hc as [? Hc]
    | apply elem_of_app in Hc as [Hc|Hc%list_elem_of_singleton] ].

Ltac decide_goal :=
  match goal with
  | |- context [decide (?a = ?b)] => destruct (decide (a = b)); simplify_eq/=
  end.

Ltac decide_hyp H :=
  match type of H with
  | context [decide (?a = ?b)] => destruct (decide (a = b)); simplify_eq/=
  end.

Ltac lookup_goal :=
  repeat first
    [ rewrite lookup_insert; decide_goal
    | rewrite lookup_delete; decide_goal ].

Ltac lookup_hyp H :=
  repeat first
    [ rewrite lookup_insert in H; decide_hyp H
    | rewrite lookup_delete in H; decide_hyp H ].

Lemma chosen_candidate_not_donor s i receiver d :
  (∀ c, c ∈ candidacies s →
        ∃ d, donations s !! c_donationId c = Some d ∧ donorId d ≠ c_userId c) →
  donations s !! i = Some d →
  defined (head (filter (CandidacyRepository.is_pair i receiver) (candidacies s))) = true →
  Some receiver ≠ Some (donorId d).
Proof.
  intros Hcand Hd Hdef.
  destruct (head _) as [c|] eqn:Hh; [|done].
  apply head_filter_Some in Hh as [Hc [Hi Hu]].
  destruct (Hcand c Hc) as (d0 & Hd0 & Hne). rewrite Hi, Hd in Hd0.
  simplify_eq. congruence.
Qed.

Ltac solve_cands Hcand :=
  let c := fresh "c" in
  let Hc := fresh "Hc" in
  intros c Hc; repeat cand_in Hc;
  try (destruct (Hcand c Hc) as (? & ? & ?));
  lookup_goal; simplify_eq/=;
  (eexists; split; [done|]; simpl; congruence).

Ltac solve_recs Hcand Hrec :=
  let k := fresh "k" in
  let x := fresh "x" in
  let Hx := fresh "Hx" in
  intros k x Hx; lookup_hyp Hx; simpl;
  first [ done
        | by eapply Hrec
        | by eapply chosen_candidate_not_donor ].

Lemma parties_handle r s : parties_ok s → parties_ok (handle r s).
Proof.
  intros [Hcand Hrec].
  destruct r; simpl; exec; split_run; try done; bool_hyps.
  all: split; simpl.
  all: try done.
  all: try solve [solve_cands Hcand].
  all: try solve [solve_recs Hcand Hrec].
Qed.

Lemma reachable_parties s : reachable s → parties_ok s.
Proof.
  induction 1 as [us|r s _ IH]; [|by apply parties_handle].
  split; simpl.
  - intros c Hc. by apply not_elem_of_nil in Hc.
  - intros k d Hd. by rewrite lookup_empty in Hd.
Qed.

Lemma reachable_receiver s i d :
  reachable s →
  donations s !! i = Some d →
  status d ≠ OPEN →
  ∃ r, receiverId d = Some r ∧ r ≠ donorId d.
Proof.
  intros Hs Hd Hst.
  pose proof (reachable_consistent s Hs i) as Hk. rewrite Hd in Hk.
  destruct Hk as [Hk _].
  destruct (reachable_parties s Hs) as [_ Hrec].
  destruct (receiverId d) as [r|] eqn:Hr.
  - exists r. split; [done|]. intros ->. by apply (Hrec i d Hd).
  - by destruct Hst; apply Hk.
Qed.

(** ** C1: receiver and status *)

Lemma store_after_completed :
  donations (Scenario.store_after Scenario.completed) !! "d1"
  = Some (Scenario.chair_of COMPLETED (Some "bob") None).
Proof. vm_compute. reflexivity. Qed.

(** C1, as stated, fails: after both parties have confirmed pickup and
    completion the donation is COMPLETED and bob is still its receiver, so
    "receiver set iff IN_PROGRESS or PICKED_UP" does not hold of this
    reachable store. *)
Lemma completed_donation_keeps_receiver :
  reachable (Scenario.store_after Scenario.completed)
  ∧ ¬ receiver_iff_in_progress_or_picked_up (Scenario.store_after Scenario.completed).
Proof.
  split; [apply reachable_store_after|].
  intros Hclaim.
  destruct (Hclaim _ _ store_after_completed) as [Hcl _].
  destruct Hcl as [?|?]; done.
Qed.

(** C1 (amended): in every store reachable through the engine's operations, a
    donation has a receiver if and only if its status is IN_PROGRESS, PICKED_UP
    or COMPLETED; that is, the receiver is null exactly while it is OPEN. *)
Theorem receiver_set_iff_not_open s :
  reachable s → receiver_iff_not_open s.
Proof.
  intros Hs k d Hd.
  pose proof (reachable_consistent s Hs k) as Hk.
  rewrite Hd in Hk. destruct Hk as [Hk _]. split.
  - intros Hne. destruct (status d); [|by eauto..].
    exfalso. by apply Hne, Hk.
  - intros Hst Hn. apply Hk in Hn. rewrite Hn in Hst.
    by destruct Hst as [?|[?|?]].
Qed.

Lemma receiver_set_iff_not_open_witness :
  reachable (Scenario.store_after Scenario.completed)
  ∧ receiver_iff_not_open (Scenario.store_after Scenario.completed).
Proof.
  split.
  - apply reachable_store_after.
  - apply (receiver_set_iff_not_open _ (reachable_store_after Scenario.completed)).
Defined.

(** ** C2: choosing the receiver *)

(** C2: on an OPEN donation, [chooseReceiver] called by the donor for a user
    with an active candidacy succeeds; afterwards the donation is IN_PROGRESS
    with that user as receiver, its Progress record exists with the seven
    flags false, and no candidacy of the donation is left (the list of
    candidates is empty, the winner's candidacy included). An actor other than
    the donor gets Forbidden; the donor gets ValidationFailed when the donation
    is not OPEN or the user has no candidacy. Failures leave the store as it
    was. *)
Theorem chooseReceiver_outcomes s i receiver donor d :
  reachable s →
  donations s !! i = Some d →
  (donorId d ≠ donor →
     DonationService.chooseReceiver i receiver donor s
     = (Err (AppError ForbiddenError), s))
  ∧ (donorId d = donor → status d ≠ OPEN ∨ ¬ has_candidacy s i receiver →
     DonationService.chooseReceiver i receiver donor s
     = (Err (AppError ValidationError), s))
  ∧ (donorId d = donor → status d = OPEN → has_candidacy s i receiver →
     let s' := handle (ReqChooseReceiver i receiver donor) s in
     ∃ d',
       DonationService.chooseReceiver i receiver donor s = (Ok d', s')
       ∧ donations s' !! i = Some d'
       ∧ status d' = IN_PROGRESS
       ∧ receiverId d' = Some receiver
       ∧ progress s' !! i =
           Some {| pickupConfirmedByDonor := false; pickupConfirmedByReceiver := false;
                   completionConfirmedByDonor := false;
                   completionConfirmedByReceiver := false;
                   returnSignaledByReceiver := false; returnConfirmedByDonor := false;
                   returnConfirmedByReceiver := false |}
       ∧ DonationService.getDonationCandidates i donor s' = (Ok [], s')
       ∧ ∀ u, ¬ has_candidacy s' i u).
Proof.
  intros Hs Hd. split; [|split].
  - intros Hne. exec. rewrite Hd. simpl.
    by rewrite bool_decide_eq_true_2.
  - intros Heq Hbad. exec. rewrite Hd. simpl.
    rewrite bool_decide_eq_false_2 by (by intros ?).
    destruct (decide (status d = OPEN)) as [Hst|Hst].
    + rewrite bool_decide_eq_false_2 by (by intros ?).
      destruct Hbad as [?|Hno]; [done|].
      apply find_candidacy_None in Hno. by rewrite Hno.
    + by rewrite bool_decide_eq_true_2.
  - intros Heq Hst Hc s'.
    pose proof (reachable_consistent s Hs i) as Hk. rewrite Hd in Hk.
    destruct Hk as [_ Hk].
    assert (progress s !! i = None) as Hp.
    { destruct (progress s !! i) eqn:Hp; [|done]. by destruct Hk. }
    subst s'. unfold DonationService.getDonationCandidates, handle.
    unfold CandidacyRepository.findByDonation. exec.
    rewrite Hd. simpl.
    rewrite !bool_decide_eq_false_2 by (by intros ?). simpl.
    rewrite (find_candidacy_Some _ _ _ Hc). simpl.
    repeat first [ rewrite Hd | rewrite Hp | rewrite lookup_insert_eq
                 | rewrite bool_decide_eq_false_2 by (by intros ?)
                 | rewrite filter_other_donation_nil
                 | progress simpl ].
    eexists. repeat split; try done.
    intros u Hu. unfold has_candidacy in Hu. simpl in Hu.
    apply list_elem_of_filter in Hu as [Hu _]. by apply Hu.
Qed.

Lemma chooseReceiver_outcomes_witness :
  reachable (Scenario.store_after Scenario.offered)
  ∧ donations (Scenario.store_after Scenario.offered) !! "d1"
    = Some (Scenario.chair_of OPEN None None)
  ∧ has_candidacy (Scenario.store_after Scenario.offered) "d1" "bob"
  ∧ DonationService.chooseReceiver "d1" "bob" "carol"
      (Scenario.store_after Scenario.offered)
    = (Err (AppError ForbiddenError), Scenario.store_after Scenario.offered)
  ∧ DonationService.chooseReceiver "d1" "dave" "alice"
      (Scenario.store_after Scenario.offered)
    = (Err (AppError ValidationError), Scenario.store_after Scenario.offered)
  ∧ DonationService.getDonationCandidates "d1" "alice"
      (Scenario.store_after Scenario.chosen)
    = (Ok [], Scenario.store_after Scenario.chosen).
Proof.
  assert (donations (Scenario.store_after Scenario.offered) !! "d1"
          = Some (Scenario.chair_of OPEN None None)) as Hd
    by (vm_compute; reflexivity).
  assert (has_candidacy (Scenario.store_after Scenario.offered) "d1" "bob") as Hc
    by (vm_compute; left).
  pose proof (chooseReceiver_outcomes _ "d1" "bob" "carol" _
                (reachable_store_after Scenario.offered) Hd) as (Hforbidden & _ & _).
  pose proof (chooseReceiver_outcomes _ "d1" "dave" "alice" _
                (reachable_store_after Scenario.offered) Hd) as (_ & Hinvalid & _).
  pose proof (chooseReceiver_outcomes _ "d1" "bob" "alice" _
                (reachable_store_after Scenario.offered) Hd) as (_ & _ & Hok).
  destruct (Hok eq_refl eq_refl Hc) as (d' & _ & _ & _ & _ & _ & Hlist & _).
  split; [apply reachable_store_after|].
  split; [exact Hd|].
  split; [exact Hc|].
  split; [apply Hforbidden; vm_compute; discriminate|].
  split; [|exact Hlist].
  apply Hinvalid; [reflexivity|]. right. vm_compute.
  intros Hin. repeat (apply elem_of_cons in Hin as [Hin|Hin]; [discriminate|]).
  by apply not_elem_of_nil in Hin.
Defined.

(** ** C3: a party cannot touch the other party's half *)

Lemma defined_is_Some {A} (x : option A) : defined x = true ↔ is_Some x.
Proof. destruct x; simpl; split; done. Qed.

Lemma requests_receiver_half_true u :
  requests_receiver_half u →
  defined (up_pickupConfirmedByReceiver u)
  || defined (up_completionConfirmedByReceiver u)
  || defined (up_returnConfirmedByReceiver u) = true.
Proof.
  rewrite !orb_true_iff, !defined_is_Some. unfold requests_receiver_half. tauto.
Qed.

Lemma requests_donor_half_true u :
  requests_donor_half u →
  defined (up_pickupConfirmedByDonor u)
  || defined (up_completionConfirmedByDonor u)
  || defined (up_returnConfirmedByDonor u) = true.
Proof.
  rewrite !orb_true_iff, !defined_is_Some. unfold requests_donor_half. tauto.
Qed.

(** C3: for a donation with a receiver and a Progress record, an
    [updateProgress] request of the donor that names a flag of the receiver's
    half, or of the receiver that names a flag of the donor's half, fails with
    Forbidden and the store is exactly what it was: nothing of the request is
    written, the actor's own flags included. (The receiver [r] is non-empty:
    the service tests [!donation.receiverId].) *)
Theorem updateProgress_other_half_forbidden s i userId updates d r p :
  donations s !! i = Some d →
  receiverId d = Some r →
  r ≠ "" →
  progress s !! i = Some p →
  (userId = donorId d ∧ requests_receiver_half updates)
  ∨ (userId = r ∧ requests_donor_half updates) →
  DonationService.updateProgress i userId updates s
  = (Err (AppError ForbiddenError), s).
Proof.
  intros Hd Hr Hne Hp Hact. exec. rewrite Hd. simpl.
  rewrite Hr. simpl.
  rewrite (bool_decide_eq_false_2 (r = "")) by done. simpl.
  rewrite Hp. simpl.
  destruct Hact as [[-> Hreq]|[-> Hreq]].
  - rewrite (bool_decide_eq_true_2 (donorId d = donorId d)) by done. simpl.
    by rewrite (requests_receiver_half_true _ Hreq).
  - rewrite (bool_decide_eq_true_2 (Some r = Some r)) by done.
    rewrite andb_false_r. simpl.
    rewrite (requests_donor_half_true _ Hreq).
    destruct (bool_decide (donorId d = r)); simpl; [|done].
    by destruct (_ || _).
Qed.

Lemma updateProgress_other_half_forbidden_witness :
  DonationService.updateProgress "d1" "alice" Scenario.pickup_by_receiver
    (Scenario.store_after Scenario.chosen)
  = (Err (AppError ForbiddenError), Scenario.store_after Scenario.chosen).
Proof.
  apply (updateProgress_other_half_forbidden _ "d1" "alice" _
           (Scenario.chair_of IN_PROGRESS (Some "bob") None) "bob"
           DonationProgressRepository.initial_progress).
  - vm_compute. reflexivity.
  - reflexivity.
  - discriminate.
  - vm_compute. reflexivity.
  - left. split; [reflexivity|]. left. by eexists.
Defined.

(** ** C4: completion only after the joint pickup confirmation *)

Ltac progress_lookups :=
  repeat match goal with
  | H : <[_:=_]> _ !! _ = Some _ |- _ => rewrite lookup_insert_eq in H; simplify_eq/=
  | H : delete _ _ !! _ = Some _ |- _ => rewrite lookup_delete_eq in H; simplify_eq/=
  end.

Lemma completion_guard_donor (a b c c' : option bool) (pa pb pc : bool) :
  (truthy_flag c || truthy_flag c') && negb (nullish a pa && nullish b pb) = false →
  nullish c pc = true → pc = false →
  nullish a pa = true ∧ nullish b pb = true.
Proof.
  intros Hg Hc ->. destruct c as [[]|]; simpl in *; try done.
  apply negb_false_iff, andb_true_iff in Hg. done.
Qed.

Lemma completion_guard_receiver (a b c c' : option bool) (pa pb pc : bool) :
  (truthy_flag c || truthy_flag c') && negb (nullish a pa && nullish b pb) = false →
  nullish c' pc = true → pc = false →
  nullish a pa = true ∧ nullish b pb = true.
Proof.
  intros Hg Hc ->. destruct c' as [[]|]; simpl in *; try done.
  rewrite orb_true_r in Hg.
  apply negb_false_iff, andb_true_iff in Hg. done.
Qed.

Lemma completion_flag_turned_on r s k p' :
  progress (handle r s) !! k = Some p' →
  (completionConfirmedByDonor p' = true
   ∧ ∀ p, progress s !! k = Some p → completionConfirmedByDonor p = false)
  ∨ (completionConfirmedByReceiver p' = true
     ∧ ∀ p, progress s !! k = Some p → completionConfirmedByReceiver p = false) →
  pickupConfirmedByDonor p' = true ∧ pickupConfirmedByReceiver p' = true.
Proof.
  intros Hp' Hon.
  destruct (decide (k = target r)) as [->|Hne].
  2:{ destruct (handle_frame r s k Hne) as [_ Hfr]. rewrite Hfr in Hp'.
      destruct Hon as [[Ht Hf]|[Ht Hf]]; rewrite (Hf _ Hp') in Ht; done. }
  destruct r; simpl in *; exec; split_run; progress_lookups.
  all: destruct Hon as [[Ht Hf]|[Ht Hf]];
    match goal with
    | Hp : progress _ !! _ = Some _ |- _ => specialize (Hf _ Hp)
    | _ => idtac
    end; simpl in *; try congruence.
  all: first [ by eapply completion_guard_donor | by eapply completion_guard_receiver ].
Qed.

(** C4: whenever a request turns a completion-confirmation flag on, both
    pickup-confirmation flags are true in the Progress record it leaves
    behind; and the donor's request [{ completionConfirmedByDonor: true }] on
    a record whose pickup is not jointly confirmed (the fresh all-false record
    in particular) fails, in every reachable store, with ValidationFailed and
    writes nothing. *)
Theorem completion_requires_joint_pickup :
  (∀ r s k,
     becomes_true completionConfirmedByDonor r s k
     ∨ becomes_true completionConfirmedByReceiver r s k →
     ∃ p', progress (handle r s) !! k = Some p'
           ∧ pickupConfirmedByDonor p' = true
           ∧ pickupConfirmedByReceiver p' = true)
  ∧ (∀ s i d p,
       reachable s →
       donations s !! i = Some d →
       progress s !! i = Some p →
       pickupConfirmedByDonor p && pickupConfirmedByReceiver p = false →
       DonationService.updateProgress i (donorId d) Scenario.completion_by_donor s
       = (Err (AppError ValidationError), s)).
Proof.
  split.
  - intros r s k Hon.
    assert (∃ p', progress (handle r s) !! k = Some p') as [p' Hp'].
    { destruct Hon as [[_ (p' & ? & _)]|[_ (p' & ? & _)]]; eauto. }
    exists p'. split; [done|].
    apply (completion_flag_turned_on r s k p' Hp').
    destruct Hon as [[Hf (q & Hq & Ht)]|[Hf (q & Hq & Ht)]];
      rewrite Hp' in Hq; simplify_eq; [left|right]; done.
  - intros s i d p Hs Hd Hp Hpick.
    destruct (reachable_receiver s i d Hs Hd) as (r & Hr & Hdr).
    { pose proof (reachable_consistent s Hs i) as Hk. rewrite Hd, Hp in Hk.
      by apply Hk. }
    exec. rewrite Hd. simpl. rewrite Hr. simpl.
    destruct (bool_decide (r = "")); simpl; [done|].
    rewrite Hp. simpl.
    rewrite (bool_decide_eq_true_2 (donorId d = donorId d)) by done. simpl.
    rewrite (bool_decide_eq_false_2 (Some r = Some (donorId d))) by congruence.
    simpl. by rewrite Hpick.
Qed.

Lemma completion_requires_joint_pickup_witness :
  becomes_true completionConfirmedByDonor
    (ReqUpdateProgress "d1" "alice" Scenario.completion_by_donor)
    (Scenario.store_after Scenario.picked_up) "d1"
  ∧ (∃ p', progress (Scenario.store_after
                       (Scenario.picked_up
                        ++ [ReqUpdateProgress "d1" "alice" Scenario.completion_by_donor]))
             !! "d1" = Some p'
           ∧ pickupConfirmedByDonor p' = true
           ∧ pickupConfirmedByReceiver p' = true)
  ∧ DonationService.updateProgress "d1" "alice" Scenario.completion_by_donor
      (Scenario.store_after Scenario.chosen)
    = (Err (AppError ValidationError), Scenario.store_after Scenario.chosen).
Proof.
  destruct completion_requires_joint_pickup as [Hstep Hfresh].
  assert (becomes_true completionConfirmedByDonor
            (ReqUpdateProgress "d1" "alice" Scenario.completion_by_donor)
            (Scenario.store_after Scenario.picked_up) "d1") as Hon.
  { split.
    - intros p Hp. vm_compute in Hp. by injection Hp as <-.
    - eexists. split; [vm_compute; reflexivity|reflexivity]. }
  split; [exact Hon|]. split.
  - exact (Hstep _ _ _ (or_introl Hon)).
  - apply (Hfresh _ "d1" (Scenario.chair_of IN_PROGRESS (Some "bob") None)
             DonationProgressRepository.initial_progress).
    + apply reachable_store_after.
    + vm_compute. reflexivity.
    + vm_compute. reflexivity.
    + reflexivity.
Defined.

(** ** C5: return confirmations before the return is signaled *)

(** C5 does not hold of [updateProgress]: right after the receiver is chosen,
    while [returnSignaledByReceiver] is false, the donor's request
    [{ returnConfirmedByDonor: true }] is accepted and written. The sibling
    entry point [confirmReturn] refuses to confirm a return that was not
    signaled. *)
Lemma updateProgress_confirms_unsignaled_return :
  let s := Scenario.store_after Scenario.chosen in
  let s' := handle (ReqUpdateProgress "d1" "alice" Scenario.return_confirmed_by_donor) s in
  reachable s
  ∧ becomes_true returnConfirmedByDonor
      (ReqUpdateProgress "d1" "alice" Scenario.return_confirmed_by_donor) s "d1"
  ∧ (∃ p', progress s' !! "d1" = Some p'
           ∧ returnConfirmedByDonor p' = true
           ∧ returnSignaledByReceiver p' = false)
  ∧ DonationService.confirmReturn "d1" "alice" s
    = (Err (AppError ValidationError), s).
Proof.
  intros s s'. split; [apply reachable_store_after|]. split; [split|split].
  - intros p Hp. vm_compute in Hp. by injection Hp as <-.
  - eexists. split; [vm_compute; reflexivity|reflexivity].
  - eexists. split; [vm_compute; reflexivity|done].
  - vm_compute. reflexivity.
Qed.

(** The same for the receiver's flag, once the pickup is jointly confirmed. *)
Lemma updateProgress_receiver_confirms_unsignaled_return :
  let s := Scenario.store_after Scenario.picked_up in
  let s' := handle (ReqUpdateProgress "d1" "bob" Scenario.return_confirmed_by_receiver) s in
  reachable s
  ∧ ∃ p', progress s' !! "d1" = Some p'
          ∧ returnConfirmedByReceiver p' = true
          ∧ returnSignaledByReceiver p' = false.
Proof.
  intros s s'. split; [apply reachable_store_after|].
  eexists. split; [vm_compute; reflexivity|done].
Qed.

(** ** C6: refused applications *)

Lemma store_after_offered :
  donations (Scenario.store_after Scenario.offered) !! "d1"
  = Some (Scenario.chair_of OPEN None None).
Proof. vm_compute. reflexivity. Qed.

Lemma bob_has_applied :
  has_candidacy (Scenario.store_after Scenario.offered) "d1" "bob".
Proof. vm_compute. left. Qed.

(** C6, as stated, fails on the error kind: bob, who has already applied,
    applies again and the service throws its ValidationError, not Conflict. *)
Lemma duplicate_application_is_not_conflict :
  has_candidacy (Scenario.store_after Scenario.offered) "d1" "bob"
  ∧ (DonationService.applyForDonation "d1" "bob"
       (Scenario.store_after Scenario.offered)).1
    ≠ Err (AppError ConflictError).
Proof.
  split; [exact bob_has_applied|]. vm_compute. discriminate.
Qed.

(** C6 (amended): [applyForDonation] fails with ValidationFailed when a
    candidacy of the pair exists already, when the applicant is the donor, or
    when the donation is not OPEN; the store, and so the list of candidacies,
    is left as it was. *)
Theorem applyForDonation_refusals s i userId d :
  donations s !! i = Some d →
  has_candidacy s i userId ∨ donorId d = userId ∨ status d ≠ OPEN →
  DonationService.applyForDonation i userId s
  = (Err (AppError ValidationError), s).
Proof.
  intros Hd Hbad. exec. rewrite Hd. simpl.
  destruct (decide (donorId d = userId)) as [Hdonor|Hdonor].
  { by rewrite bool_decide_eq_true_2. }
  rewrite bool_decide_eq_false_2 by done. simpl.
  destruct (decide (status d = OPEN)) as [Hst|Hst].
  2:{ by rewrite bool_decide_eq_true_2. }
  rewrite bool_decide_eq_false_2 by (by intros ?). simpl.
  destruct Hbad as [Hc|[?|?]]; try done.
  by rewrite (find_candidacy_Some _ _ _ Hc).
Qed.

Lemma applyForDonation_refusals_witness :
  DonationService.applyForDonation "d1" "bob" (Scenario.store_after Scenario.offered)
  = (Err (AppError ValidationError), Scenario.store_after Scenario.offered).
Proof.
  apply (applyForDonation_refusals _ "d1" "bob" _ store_after_offered).
  left. vm_compute. left.
Defined.

(** ** C7: the return round trip *)

Lemma applyForDonation_ok s i u d :
  donations s !! i = Some d →
  donorId d ≠ u →
  status d = OPEN →
  ¬ has_candidacy s i u →
  DonationService.applyForDonation i u s
  = (Ok {| c_donationId := i; c_userId := u |},
     set_candidacies (λ l, l ++ [{| c_donationId := i; c_userId := u |}]) s).
Proof.
  intros Hd Hu Hst Hc. apply find_candidacy_None in Hc.
  exec. rewrite Hd. simpl.
  rewrite bool_decide_eq_false_2 by done. simpl.
  rewrite bool_decide_eq_false_2 by (by intros ?). simpl.
  rewrite Hc. simpl. by rewrite Hc.
Qed.

Lemma reopened_intro s i d :
  donations s !! i = Some d →
  status d = OPEN → receiverId d = None → returnReason d = None →
  progress s !! i = None →
  reopened s i.
Proof.
  intros Hd Hst Hr Hreason Hp. exists d. repeat split; try done.
  intros u Hu Hc. by apply (applyForDonation_ok s i u d).
Qed.

(** The party whose confirmation is the second one closes the return. *)
Lemma confirmReturn_last s i u d p :
  donations s !! i = Some d →
  progress s !! i = Some p →
  returnSignaledByReceiver p = true →
  (u = donorId d ∧ returnConfirmedByReceiver p = true)
  ∨ (u ≠ donorId d ∧ receiverId d = Some u ∧ returnConfirmedByDonor p = true) →
  DonationService.confirmReturn i u s
  = (Ok ReturnConfirmedDonationAvailable, return_completed_store i d s).
Proof.
  intros Hd Hp Hsig Hu. unfold return_completed_store. exec.
  rewrite Hd. simpl.
  destruct Hu as [[-> Hother]|(Hne & Hrec & Hother)].
  - rewrite (bool_decide_eq_true_2 (donorId d = donorId d)) by done. simpl.
    rewrite Hp. simpl. rewrite Hsig. simpl. rewrite Hp. simpl.
    rewrite lookup_insert_eq. simpl. rewrite Hsig, Hother. simpl.
    rewrite Hd. simpl. rewrite lookup_insert_eq. simpl.
    by rewrite delete_insert_eq.
  - rewrite (bool_decide_eq_false_2 (donorId d = u)) by done. simpl.
    rewrite (bool_decide_eq_true_2 (receiverId d = Some u)) by done. simpl.
    rewrite Hp. simpl. rewrite Hsig. simpl. rewrite Hp. simpl.
    rewrite lookup_insert_eq. simpl. rewrite Hsig, Hother. simpl.
    rewrite Hd. simpl. rewrite lookup_insert_eq. simpl.
    by rewrite delete_insert_eq.
Qed.

(** The party whose confirmation is the first one is told to wait; only its
    own flag is written. *)
Lemma confirmReturn_first s i u d p :
  donations s !! i = Some d →
  progress s !! i = Some p →
  returnSignaledByReceiver p = true →
  (u = donorId d ∧ returnConfirmedByReceiver p = false)
  ∨ (u ≠ donorId d ∧ receiverId d = Some u ∧ returnConfirmedByDonor p = false) →
  DonationService.confirmReturn i u s
  = (Ok ConfirmationRegisteredWaiting,
     set_progress
       (insert i
          (DonationProgressRepository.apply_partial
             (if bool_decide (donorId d = u)
              then DonationProgressRepository.only_returnConfirmedByDonor true
              else DonationProgressRepository.only_returnConfirmedByReceiver true) p))
       s).
Proof.
  intros Hd Hp Hsig Hu. exec.
  rewrite Hd. simpl.
  destruct Hu as [[-> Hother]|(Hne & Hrec & Hother)].
  - rewrite (bool_decide_eq_true_2 (donorId d = donorId d)) by done. simpl.
    rewrite Hp. simpl. rewrite Hsig. simpl. rewrite Hp. simpl.
    rewrite lookup_insert_eq. simpl. by rewrite Hsig, Hother.
  - rewrite (bool_decide_eq_false_2 (donorId d = u)) by done. simpl.
    rewrite (bool_decide_eq_true_2 (receiverId d = Some u)) by done. simpl.
    rewrite Hp. simpl. rewrite Hsig. simpl. rewrite Hp. simpl.
    rewrite lookup_insert_eq. simpl. by rewrite Hsig, Hother.
Qed.

(** A confirmation that arrives after the return was closed changes nothing
    (the donor finds no Progress record, the former receiver is no party). *)
Lemma confirmReturn_after_close s i u d :
  donations s !! i = Some d →
  progress s !! i = None →
  (DonationService.confirmReturn i u s).2 = s.
Proof.
  intros Hd Hp. exec. rewrite Hd. simpl.
  destruct (negb _ && negb _); simpl; [done|]. by rewrite Hp.
Qed.

Lemma return_completed_store_reopened s i d :
  reopened (return_completed_store i d s) i.
Proof.
  apply (reopened_intro _ i (DonationRepository.without_receiver d)); try done.
  - simpl. apply lookup_insert_eq.
  - simpl. apply lookup_delete_eq.
Qed.

Lemma return_round_trip_parties s i d r p :
  donations s !! i = Some d →
  receiverId d = Some r →
  r ≠ donorId d →
  progress s !! i = Some p →
  returnSignaledByReceiver p = true →
  reopened (run [ReqConfirmReturn i (donorId d); ReqConfirmReturn i r] s) i
  ∧ reopened (run [ReqConfirmReturn i r; ReqConfirmReturn i (donorId d)] s) i.
Proof.
  intros Hd Hr Hne Hp Hsig. unfold run. simpl. split.
  - destruct (returnConfirmedByReceiver p) eqn:Hrec.
    + rewrite (confirmReturn_last s i (donorId d) d p) by auto. simpl.
      rewrite (confirmReturn_after_close _ i r (DonationRepository.without_receiver d)).
      * apply return_completed_store_reopened.
      * simpl. apply lookup_insert_eq.
      * simpl. apply lookup_delete_eq.
    + rewrite (confirmReturn_first s i (donorId d) d p) by auto. simpl.
      rewrite (bool_decide_eq_true_2 (donorId d = donorId d)) by done.
      erewrite (confirmReturn_last _ i r d).
      * apply return_completed_store_reopened.
      * done.
      * simpl. apply lookup_insert_eq.
      * done.
      * right. done.
  - destruct (returnConfirmedByDonor p) eqn:Hdon.
    + rewrite (confirmReturn_last s i r d p) by auto. simpl.
      rewrite (confirmReturn_after_close _ i (donorId d)
                 (DonationRepository.without_receiver d)).
      * apply return_completed_store_reopened.
      * simpl. apply lookup_insert_eq.
      * simpl. apply lookup_delete_eq.
    + rewrite (confirmReturn_first s i r d p) by auto. simpl.
      rewrite (bool_decide_eq_false_2 (donorId d = r)) by done.
      erewrite (confirmReturn_last _ i (donorId d) d).
      * apply return_completed_store_reopened.
      * done.
      * simpl. apply lookup_insert_eq.
      * done.
      * left. done.
Qed.

(** C7: in a reachable store, take a PICKED_UP donation whose return has been
    signaled. It has a receiver, and once the donor and the receiver have each
    called [confirmReturn] (in either order) the donation is OPEN again, its
    receiver and its return reason are null, its Progress record is gone, and
    users can apply for it afresh. *)
Theorem return_round_trip s i d p :
  reachable s →
  donations s !! i = Some d →
  status d = PICKED_UP →
  progress s !! i = Some p →
  returnSignaledByReceiver p = true →
  ∃ r,
    receiverId d = Some r
    ∧ reopened (run [ReqConfirmReturn i (donorId d); ReqConfirmReturn i r] s) i
    ∧ reopened (run [ReqConfirmReturn i r; ReqConfirmReturn i (donorId d)] s) i.
Proof.
  intros Hs Hd Hst Hp Hsig.
  destruct (reachable_receiver s i d Hs Hd) as (r & Hr & Hne).
  { by rewrite Hst. }
  exists r. split; [done|].
  by apply (return_round_trip_parties s i d r p).
Qed.

Lemma store_after_return_signaled :
  donations (Scenario.store_after Scenario.return_signaled) !! "d1"
  = Some (Scenario.chair_of PICKED_UP (Some "bob") (Some "item damaged")).
Proof. vm_compute. reflexivity. Qed.

Lemma progress_after_return_signaled :
  progress (Scenario.store_after Scenario.return_signaled) !! "d1"
  = Some return_signaled_progress.
Proof. vm_compute. reflexivity. Qed.

Lemma return_round_trip_witness :
  ∃ r,
    receiverId (Scenario.chair_of PICKED_UP (Some "bob") (Some "item damaged")) = Some r
    ∧ reopened (run [ReqConfirmReturn "d1" "alice"; ReqConfirmReturn "d1" r]
                  (Scenario.store_after Scenario.return_signaled)) "d1"
    ∧ reopened (run [ReqConfirmReturn "d1" r; ReqConfirmReturn "d1" "alice"]
                  (Scenario.store_after Scenario.return_signaled)) "d1".
Proof.
  exact (return_round_trip (Scenario.store_after Scenario.return_signaled) "d1"
           (Scenario.chair_of PICKED_UP (Some "bob") (Some "item damaged"))
           return_signaled_progress
           (reachable_store_after Scenario.return_signaled)
           store_after_return_signaled eq_refl
           progress_after_return_signaled eq_refl).
Defined.

(** ** C8: the edit-history diff *)

Lemma getObjectDifferences_lookup oldObj newObj key fc :
  getObjectDifferences oldObj newObj !! key = Some fc
  ↔ ∃ v, newObj !! key = Some v
         ∧ v ≠ JUndefined
         ∧ js_get oldObj key ≠ v
         ∧ fc = change_of oldObj key v.
Proof.
  unfold getObjectDifferences, change_of, strict_neq.
  rewrite map_lookup_imap.
  destruct (newObj !! key) as [v|] eqn:Hv; simpl.
  - destruct (decide (v = JUndefined)) as [Hu|Hu].
    + rewrite (bool_decide_eq_true_2 _ Hu). simpl.
      split; [done|]. intros (v' & ? & ? & _); by simplify_eq.
    + rewrite (bool_decide_eq_false_2 _ Hu). simpl.
      destruct (decide (js_get oldObj key ≠ v)) as [Hc|Hc].
      * rewrite (bool_decide_eq_true_2 _ Hc). split.
        -- intros [= <-]. by exists v.
        -- intros (v' & ? & ? & ? & ->). by simplify_eq.
      * rewrite (bool_decide_eq_false_2 _ Hc). split; [done|].
        intros (v' & ? & ? & ? & _). by simplify_eq.
  - split; [done|]. by intros (v' & ? & _).
Qed.

Lemma getObjectDifferences_None oldObj newObj key :
  getObjectDifferences oldObj newObj !! key = None
  ↔ ∀ v, newObj !! key = Some v → v = JUndefined ∨ js_get oldObj key = v.
Proof.
  split.
  - intros Hn v Hv.
    destruct (decide (v = JUndefined)) as [?|Hu]; [by left|].
    destruct (decide (js_get oldObj key = v)) as [?|Hc]; [by right|].
    assert (getObjectDifferences oldObj newObj !! key = Some (change_of oldObj key v))
      as Hs by (apply getObjectDifferences_lookup; by exists v).
    by rewrite Hn in Hs.
  - intros Hall.
    destruct (getObjectDifferences oldObj newObj !! key) as [fc|] eqn:Hfc; [|done].
    apply getObjectDifferences_lookup in Hfc as (v & Hv & Hu & Hc & _).
    by destruct (Hall v Hv).
Qed.

(** The values of an [UpdateDonationData] object are strings. *)
Lemma given_fields_strings (l : list (string * option string)) key v :
  (list_to_map
     (omap (λ kv : string * option string, (λ s, (kv.1, JString s)) <$> kv.2) l)
   : gmap string jsval) !! key = Some v →
  ∃ s, v = JString s.
Proof.
  induction l as [|[k [s|]] l IH]; simpl.
  - by rewrite lookup_empty.
  - rewrite lookup_insert. case_decide; [|done].
    intros [= <-]. by exists s.
  - done.
Qed.

Lemma update_obj_defined data key v :
  update_obj data !! key = Some v → v ≠ JUndefined.
Proof.
  intros Hv. apply given_fields_strings in Hv as [s ->]. done.
Qed.

Lemma single_change_diff oldObj newObj key v :
  newObj !! key = Some v →
  v ≠ JUndefined →
  js_get oldObj key ≠ v →
  (∀ k' v', k' ≠ key → newObj !! k' = Some v' → js_get oldObj k' = v') →
  getObjectDifferences oldObj newObj = {[ key := change_of oldObj key v ]}.
Proof.
  intros Hv Hu Hc Hrest. apply map_eq. intros k'.
  destruct (decide (k' = key)) as [->|Hne].
  - rewrite lookup_singleton_eq. apply getObjectDifferences_lookup. by exists v.
  - rewrite lookup_singleton_ne by done.
    apply getObjectDifferences_None. intros v' Hv'. right. by apply Hrest.
Qed.

Lemma updateDonation_unchanged s i u data d :
  donations s !! i = Some d →
  donorId d = u →
  status d = OPEN →
  getObjectDifferences (donation_obj d) (update_obj data) = ∅ →
  DonationService.updateDonation i u data s = (Ok d, s).
Proof.
  intros Hd Hu Hst Hdiff. exec. rewrite Hd. simpl.
  rewrite !bool_decide_eq_false_2 by (by intros ?). simpl.
  unfold keys_length. rewrite Hdiff, map_size_empty. done.
Qed.

Lemma updateDonation_changed s i u data d :
  donations s !! i = Some d →
  donorId d = u →
  status d = OPEN →
  getObjectDifferences (donation_obj d) (update_obj data) ≠ ∅ →
  ∃ d',
    DonationService.updateDonation i u data s
    = (Ok d', handle (ReqUpdateDonation i u data) s)
    ∧ donations (handle (ReqUpdateDonation i u data) s) !! i = Some d'
    ∧ content d' = DonationRepository.apply_update data (content d)
    ∧ editHistory (handle (ReqUpdateDonation i u data) s)
      = editHistory s
        ++ [ {| h_donationId := i;
                changedFields :=
                  getObjectDifferences (donation_obj d) (update_obj data) |} ].
Proof.
  intros Hd Hu Hst Hdiff. simpl. exec. rewrite Hd. simpl.
  rewrite !bool_decide_eq_false_2 by (by intros ?). simpl.
  unfold keys_length.
  rewrite bool_decide_eq_false_2 by (by rewrite map_size_empty_iff).
  rewrite Hd. simpl. eexists. repeat split; try done.
  simpl. apply lookup_insert_eq.
Qed.

(** C8: the diff of an old entity against a partial update holds exactly the
    keys of the partial whose defined value differs from the old entity's
    value, each with the old and the new value. When the diff of an update is
    empty, [updateDonation] returns the donation as it is and writes nothing
    (no history entry); when exactly one of the given fields differs,
    [updateDonation] appends exactly one history entry, which records that
    field with its old and new values. *)
Theorem edit_history_diff :
  (∀ oldObj newObj key fc,
     getObjectDifferences oldObj newObj !! key = Some fc
     ↔ ∃ v, newObj !! key = Some v ∧ v ≠ JUndefined ∧ js_get oldObj key ≠ v
            ∧ fc = {| oldValue := js_get oldObj key; newValue := v |})
  ∧ (∀ s i u data d,
       donations s !! i = Some d → donorId d = u → status d = OPEN →
       getObjectDifferences (donation_obj d) (update_obj data) = ∅ →
       DonationService.updateDonation i u data s = (Ok d, s))
  ∧ (∀ s i u data d key v,
       donations s !! i = Some d → donorId d = u → status d = OPEN →
       update_obj data !! key = Some v →
       js_get (donation_obj d) key ≠ v →
       (∀ k' v', k' ≠ key → update_obj data !! k' = Some v' →
                 js_get (donation_obj d) k' = v') →
       ∃ d',
         DonationService.updateDonation i u data s
         = (Ok d', handle (ReqUpdateDonation i u data) s)
         ∧ editHistory (handle (ReqUpdateDonation i u data) s)
           = editHistory s
             ++ [ {| h_donationId := i;
                     changedFields :=
                       {[ key := {| oldValue := js_get (donation_obj d) key;
                                    newValue := v |} ]} |} ]).
Proof.
  split; [|split].
  - apply getObjectDifferences_lookup.
  - apply updateDonation_unchanged.
  - intros s i u data d key v Hd Hu Hst Hv Hc Hrest.
    pose proof (single_change_diff (donation_obj d) (update_obj data) key v Hv
                  (update_obj_defined _ _ _ Hv) Hc Hrest) as Hdiff.
    destruct (updateDonation_changed s i u data d Hd Hu Hst) as (d' & Hrun & _ & _ & Hh).
    { rewrite Hdiff. apply insert_non_empty. }
    exists d'. split; [done|]. by rewrite Hh, Hdiff.
Qed.

Lemma only_title_other_keys t k' v' :
  k' ≠ "title" → update_obj (only_title t) !! k' = Some v' → False.
Proof.
  intros Hne Hv'. unfold update_obj in Hv'. simpl in Hv'.
  rewrite lookup_insert_ne in Hv' by done. by rewrite lookup_empty in Hv'.
Qed.

Lemma edit_history_diff_witness :
  let s := Scenario.store_after Scenario.offered in
  let d := Scenario.chair_of OPEN None None in
  DonationService.updateDonation "d1" "alice" (only_title "Wooden chair") s = (Ok d, s)
  ∧ ∃ d',
      DonationService.updateDonation "d1" "alice" (only_title "Oak chair") s
      = (Ok d', handle (ReqUpdateDonation "d1" "alice" (only_title "Oak chair")) s)
      ∧ editHistory (handle (ReqUpdateDonation "d1" "alice" (only_title "Oak chair")) s)
        = editHistory s
          ++ [ {| h_donationId := "d1";
                  changedFields :=
                    {[ "title" := {| oldValue := js_get (donation_obj d) "title";
                                     newValue := JString "Oak chair" |} ]} |} ].
Proof.
  intros s d.
  destruct edit_history_diff as (_ & Hsame & Hone).
  split.
  - apply Hsame; [exact store_after_offered|reflexivity|reflexivity|].
    vm_compute. reflexivity.
  - apply (Hone s "d1" "alice" (only_title "Oak chair") d "title" (JString "Oak chair")).
    + exact store_after_offered.
    + reflexivity.
    + reflexivity.
    + vm_compute. reflexivity.
    + vm_compute. discriminate.
    + intros k' v' Hne Hv'. destruct (only_title_other_keys _ _ _ Hne Hv').
Defined.

(** ** C9: a repeated confirmation *)

Lemma confirmReturn_again s i u d p :
  donations s !! i = Some d →
  progress s !! i = Some p →
  returnSignaledByReceiver p = true →
  (u = donorId d ∧ returnConfirmedByReceiver p = false)
  ∨ (u ≠ donorId d ∧ receiverId d = Some u ∧ returnConfirmedByDonor p = false) →
  own_return_flag d u p = true →
  DonationService.confirmReturn i u s = (Ok ConfirmationRegisteredWaiting, s).
Proof.
  intros Hd Hp Hsig Hu Hown.
  rewrite (confirmReturn_first s i u d p Hd Hp Hsig Hu).
  f_equal. unfold own_return_flag in Hown.
  assert (DonationProgressRepository.apply_partial
            (if bool_decide (donorId d = u)
             then DonationProgressRepository.only_returnConfirmedByDonor true
             else DonationProgressRepository.only_returnConfirmedByReceiver true) p
          = p) as ->.
  { destruct (bool_decide (donorId d = u)); destruct p; simpl in *; by subst. }
  unfold set_progress. rewrite (insert_id _ _ _ Hp). by destruct s.
Qed.

(** C9: while the counterpart has not confirmed the signaled return, a party
    that calls [confirmReturn] is told to wait, and when it calls again it is
    answered the same (the call is not rejected) and the store after the
    second call is the store after the first: in general, the call of a party
    whose own return-confirmation flag is already true leaves the store as it
    is. *)
Theorem confirmReturn_idempotent s i u d p :
  donations s !! i = Some d →
  progress s !! i = Some p →
  returnSignaledByReceiver p = true →
  (u = donorId d ∧ returnConfirmedByReceiver p = false)
  ∨ (u ≠ donorId d ∧ receiverId d = Some u ∧ returnConfirmedByDonor p = false) →
  (∃ s1,
     DonationService.confirmReturn i u s = (Ok ConfirmationRegisteredWaiting, s1)
     ∧ DonationService.confirmReturn i u s1 = (Ok ConfirmationRegisteredWaiting, s1))
  ∧ (own_return_flag d u p = true →
     DonationService.confirmReturn i u s = (Ok ConfirmationRegisteredWaiting, s)).
Proof.
  intros Hd Hp Hsig Hu. split; [|by apply confirmReturn_again].
  rewrite (confirmReturn_first s i u d p Hd Hp Hsig Hu).
  set (p1 := DonationProgressRepository.apply_partial _ p).
  assert (returnSignaledByReceiver p1 = true) as Hsig1.
  { subst p1. by destruct (bool_decide (donorId d = u)). }
  assert ((u = donorId d ∧ returnConfirmedByReceiver p1 = false)
          ∨ (u ≠ donorId d ∧ receiverId d = Some u
             ∧ returnConfirmedByDonor p1 = false)) as Hu1.
  { subst p1. destruct Hu as [[-> Hother]|(Hne & Hrec & Hother)].
    - left. by rewrite bool_decide_eq_true_2.
    - right. by rewrite bool_decide_eq_false_2. }
  eexists. split; [reflexivity|].
  apply (confirmReturn_again (set_progress (insert i p1) s) i u d p1 Hd
           (lookup_insert_eq _ _ _) Hsig1 Hu1).
  subst p1. unfold own_return_flag. by destruct (bool_decide (donorId d = u)).
Qed.

Lemma confirmReturn_idempotent_witness :
  ∃ s1,
    DonationService.confirmReturn "d1" "alice"
      (Scenario.store_after Scenario.return_signaled)
    = (Ok ConfirmationRegisteredWaiting, s1)
    ∧ DonationService.confirmReturn "d1" "alice" s1
      = (Ok ConfirmationRegisteredWaiting, s1).
Proof.
  apply (confirmReturn_idempotent _ "d1" "alice" _ _
           store_after_return_signaled progress_after_return_signaled eq_refl).
  left. split; reflexivity.
Defined.

(** ** C10: who can signal a return *)

Lemma updateProgress_keeps_returnSignaled s i u updates k :
  returnSignaledByReceiver <$> progress (handle (ReqUpdateProgress i u updates) s) !! k
  = returnSignaledByReceiver <$> progress s !! k.
Proof.
  destruct (decide (k = i)) as [->|Hne].
  2:{ by destruct (handle_frame (ReqUpdateProgress i u updates) s k Hne) as [_ ->]. }
  simpl. exec. split_run; try done.
  all: rewrite ?lookup_insert_eq; simpl.
  all: match goal with H : progress _ !! _ = _ |- _ => by rewrite H end.
Qed.

Lemma returnSignaled_turned_on r s k p' :
  progress (handle r s) !! k = Some p' →
  returnSignaledByReceiver p' = true →
  (∀ p, progress s !! k = Some p → returnSignaledByReceiver p = false) →
  ∃ u reason d p d',
    r = ReqSignalReturn k u reason
    ∧ donations s !! k = Some d
    ∧ receiverId d = Some u
    ∧ progress s !! k = Some p
    ∧ pickupConfirmedByDonor p = true
    ∧ pickupConfirmedByReceiver p = true
    ∧ donations (handle r s) !! k = Some d'
    ∧ returnReason d' = Some reason.
Proof.
  intros Hp' Ht Hf.
  destruct (decide (k = target r)) as [->|Hne].
  2:{ destruct (handle_frame r s k Hne) as [_ Hfr]. rewrite Hfr in Hp'.
      rewrite (Hf _ Hp') in Ht. done. }
  destruct r; simpl in *; exec; split_run; progress_lookups.
  all: try (match goal with
            | Hp : progress _ !! _ = Some _ |- _ => specialize (Hf _ Hp)
            end; simpl in *; congruence).
  all: try done.
  match goal with
  | H : bool_decide (receiverId _ ≠ Some _) = false |- _ =>
      apply bool_decide_eq_false, dec_stable in H
  end.
  match goal with
  | H : negb (pickupConfirmedByDonor _ && _) = false |- _ =>
      apply negb_false_iff, andb_true_iff in H as [? ?]
  end.
  by eexists _, _, _, _, _.
Qed.

Lemma signalReturn_success s i u reason s' :
  DonationService.signalReturn i u reason s = (Ok tt, s') →
  ∃ d p,
    donations s !! i = Some d
    ∧ receiverId d = Some u
    ∧ progress s !! i = Some p
    ∧ pickupConfirmedByDonor p = true
    ∧ pickupConfirmedByReceiver p = true
    ∧ returnSignaledByReceiver <$> progress s' !! i = Some true
    ∧ returnReason <$> donations s' !! i = Some (Some reason).
Proof.
  intros Hrun. exec. revert Hrun. split_run; intros Hrun; simplify_eq/=.
  match goal with
  | H : bool_decide (receiverId _ ≠ Some _) = false |- _ =>
      apply bool_decide_eq_false, dec_stable in H
  end.
  match goal with
  | H : negb (pickupConfirmedByDonor _ && _) = false |- _ =>
      apply negb_false_iff, andb_true_iff in H as [? ?]
  end.
  eexists _, _. rewrite !lookup_insert_eq. done.
Qed.

(** C10: [updateProgress] never changes [returnSignaledByReceiver] (its
    [updates] object has no such key); a request that turns the flag on is a
    [signalReturn] of the donation's receiver, made while both
    pickup-confirmation flags are true, and it stores its reason text on the
    donation; and every [signalReturn] that succeeds is the receiver's, finds
    both pickup flags true, sets the flag and stores the reason. *)
Theorem returnSignaled_only_by_signalReturn :
  (∀ s i u updates k,
     returnSignaledByReceiver
       <$> progress (handle (ReqUpdateProgress i u updates) s) !! k
     = returnSignaledByReceiver <$> progress s !! k)
  ∧ (∀ r s k,
       becomes_true returnSignaledByReceiver r s k →
       ∃ u reason d p d',
         r = ReqSignalReturn k u reason
         ∧ donations s !! k = Some d
         ∧ receiverId d = Some u
         ∧ progress s !! k = Some p
         ∧ pickupConfirmedByDonor p = true
         ∧ pickupConfirmedByReceiver p = true
         ∧ donations (handle r s) !! k = Some d'
         ∧ returnReason d' = Some reason)
  ∧ (∀ s i u reason s',
       DonationService.signalReturn i u reason s = (Ok tt, s') →
       ∃ d p,
         donations s !! i = Some d
         ∧ receiverId d = Some u
         ∧ progress s !! i = Some p
         ∧ pickupConfirmedByDonor p = true
         ∧ pickupConfirmedByReceiver p = true
         ∧ returnSignaledByReceiver <$> progress s' !! i = Some true
         ∧ returnReason <$> donations s' !! i = Some (Some reason)).
Proof.
  split; [|split].
  - apply updateProgress_keeps_returnSignaled.
  - intros r s k [Hf (p' & Hp' & Ht)].
    by apply (returnSignaled_turned_on r s k p').
  - apply signalReturn_success.
Qed.

Lemma returnSignaled_only_by_signalReturn_witness :
  becomes_true returnSignaledByReceiver
    (ReqSignalReturn "d1" "bob" "item damaged")
    (Scenario.store_after Scenario.picked_up) "d1"
  ∧ ∃ u reason d p d',
      ReqSignalReturn "d1" "bob" "item damaged" = ReqSignalReturn "d1" u reason
      ∧ donations (Scenario.store_after Scenario.picked_up) !! "d1" = Some d
      ∧ receiverId d = Some u
      ∧ progress (Scenario.store_after Scenario.picked_up) !! "d1" = Some p
      ∧ pickupConfirmedByDonor p = true
      ∧ pickupConfirmedByReceiver p = true
      ∧ donations (handle (ReqSignalReturn "d1" "bob" "item damaged")
                     (Scenario.store_after Scenario.picked_up)) !! "d1" = Some d'
      ∧ returnReason d' = Some reason.
Proof.
  assert (becomes_true returnSignaledByReceiver
            (ReqSignalReturn "d1" "bob" "item damaged")
            (Scenario.store_after Scenario.picked_up) "d1") as Hon.
  { split.
    - intros p Hp. vm_compute in Hp. by injection Hp as <-.
    - eexists. split; [vm_compute; reflexivity|reflexivity]. }
  split; [exact Hon|].
  exact (proj1 (proj2 returnSignaled_only_by_signalReturn) _ _ _ Hon).
Defined.

(** ** Candidacies of reachable stores *)

Lemma receiver_not_open s k d :
  consistent s →
  donations s !! k = Some d →
  truthy_id (receiverId d) = true →
  status d ≠ OPEN.
Proof.
  intros Hcons Hd Ht Hst. pose proof (Hcons k) as Hk. rewrite Hd in Hk.
  destruct Hk as [Hk _]. apply Hk in Hst. by rewrite Hst in Ht.
Qed.

Lemma open_no_progress s k d p :
  consistent s →
  donations s !! k = Some d →
  status d = OPEN →
  progress s !! k = Some p →
  False.
Proof.
  intros Hcons Hd Hst Hp. pose proof (Hcons k) as Hk. rewrite Hd, Hp in Hk.
  destruct Hk as [_ Hk]. by apply Hk.
Qed.

Lemma NoDup_snoc_candidacy s i u :
  NoDup (candidacies s) →
  head (filter (CandidacyRepository.is_pair i u) (candidacies s)) = None →
  NoDup (candidacies s ++ [{| c_donationId := i; c_userId := u |}]).
Proof.
  intros Hnd Hh. apply NoDup_app. split; [done|]. split.
  - intros c Hc Hin. apply list_elem_of_singleton in Hin as ->.
    by apply find_candidacy_None in Hh.
  - apply NoDup_singleton.
Qed.

Ltac stable_hyps :=
  repeat match goal with
  | H : ¬ (_ ≠ _) |- _ => apply dec_stable in H
  end.

Ltac solve_cands_open Hcons Hcand :=
  let c := fresh "c" in
  let Hc := fresh "Hc" in
  intros c Hc; repeat cand_in Hc;
  try (destruct (Hcand c Hc) as (? & ? & ? & ?));
  lookup_goal; simplify_eq/=;
  first
    [ by (eexists; split; [done|]; simpl; split; [done || congruence|done || congruence])
    | exfalso; by eapply open_no_progress
    | exfalso; by eapply receiver_not_open ].

Lemma candidacies_handle r s :
  consistent s → candidacies_ok s → candidacies_ok (handle r s).
Proof.
  intros Hcons [Hnd Hcand].
  destruct r; simpl; exec; split_run; try done; bool_hyps; stable_hyps.
  all: split; simpl.
  all: try done.
  all: try (by apply NoDup_filter).
  all: try (by apply NoDup_snoc_candidacy).
  all: try solve [solve_cands_open Hcons Hcand].
Qed.

Ltac solve_present Hcons Hpres i :=
  let k := fresh "k" in
  let x := fresh "x" in
  let Hx := fresh "Hx" in
  let Hst := fresh "Hst" in
  unfold progress_present; simpl;
  intros k x Hx Hst; lookup_hyp Hx; lookup_goal; simpl in *;
  try match goal with H : progress _ !! _ = Some _ |- _ => rewrite H end;
  first [ done | by eauto | by eapply Hpres
        | exfalso; by eapply open_no_progress ].

Lemma progress_present_handle r s :
  consistent s → progress_present s → progress_present (handle r s).
Proof.
  intros Hcons Hpres.
  destruct r as [i ? ?|i ? ?|i ?|i ?|i ?|i ? ?|i ?|i ? ?|i ? ?|i ?];
    simpl; exec; split_run; try done; bool_hyps; stable_hyps.
  all: try solve [solve_present Hcons Hpres i].
Qed.

Lemma reachable_candidacies s : reachable s → candidacies_ok s.
Proof.
  induction 1 as [us|r s Hs IH].
  - split; simpl; [apply NoDup_nil_2|]. intros c Hc. by apply not_elem_of_nil in Hc.
  - apply candidacies_handle; [by apply reachable_consistent|done].
Qed.

Lemma reachable_progress_present s : reachable s → progress_present s.
Proof.
  induction 1 as [us|r s Hs IH].
  - intros k d Hd. simpl in Hd. by rewrite lookup_empty in Hd.
  - apply progress_present_handle; [by apply reachable_consistent|done].
Qed.



(** X1: in every reachable store there is at most one candidacy per
    (donation, applicant) pair, and every candidacy is for an existing
    donation that is still OPEN and was made by someone other than its donor
    (the candidacies of a donation go away when its receiver is chosen or the
    donation is deleted). *)
Theorem candidacies_of_reachable_store s :
  reachable s → candidacies_ok s.
Proof. apply reachable_candidacies. Qed.

Lemma candidacies_of_reachable_store_witness :
  reachable (Scenario.store_after Scenario.offered)
  ∧ candidacies_ok (Scenario.store_after Scenario.offered).
Proof.
  split; [apply reachable_store_after|].
  exact (candidacies_of_reachable_store _ (reachable_store_after Scenario.offered)).
Defined.

(** X2: in every reachable store a donation has a Progress record exactly when
    it has a receiver, and there is no Progress record without its donation. *)
Theorem progress_iff_receiver s k :
  reachable s →
  match donations s !! k with
  | Some d => is_Some (progress s !! k) ↔ receiverId d ≠ None
  | None => progress s !! k = None
  end.
Proof.
  intros Hs.
  pose proof (reachable_consistent s Hs k) as Hk.
  pose proof (reachable_progress_present s Hs k) as Hpres.
  destruct (donations s !! k) as [d|] eqn:Hd; [|done].
  destruct Hk as [Hopen Hprog]. split.
  - intros Hp Hnone. apply Hopen in Hnone. by apply Hprog.
  - intros Hrec. apply (Hpres d eq_refl). intros Hst. by apply Hrec, Hopen.
Qed.

Lemma progress_iff_receiver_witness :
  reachable (Scenario.store_after Scenario.chosen)
  ∧ match donations (Scenario.store_after Scenario.chosen) !! "d1" with
    | Some d =>
        is_Some (progress (Scenario.store_after Scenario.chosen) !! "d1")
        ↔ receiverId d ≠ None
    | None => progress (Scenario.store_after Scenario.chosen) !! "d1" = None
    end.
Proof.
  split; [apply reachable_store_after|].
  exact (progress_iff_receiver _ "d1" (reachable_store_after Scenario.chosen)).
Defined.

(** ** Failures *)

(** X3: a request that the service refuses with one of its own errors
    (NotFound, Forbidden, ValidationError) has written nothing: the store is
    exactly what it was. *)
Theorem refused_request_writes_nothing r s k :
  outcome r s = Some (AppError k) →
  handle r s = s.
Proof.
  unfold outcome. destruct r; simpl; exec; split_run; try done.
Qed.

Lemma refused_request_writes_nothing_witness :
  outcome (ReqChooseReceiver "d1" "bob" "carol") (Scenario.store_after Scenario.offered)
  = Some (AppError ForbiddenError)
  ∧ handle (ReqChooseReceiver "d1" "bob" "carol") (Scenario.store_after Scenario.offered)
    = Scenario.store_after Scenario.offered.
Proof.
  assert (outcome (ReqChooseReceiver "d1" "bob" "carol")
            (Scenario.store_after Scenario.offered)
          = Some (AppError ForbiddenError)) as Hout by (vm_compute; reflexivity).
  split; [exact Hout|].
  exact (refused_request_writes_nothing _ _ _ Hout).
Defined.

Lemma found_candidacy_in_list s i u c :
  head (filter (CandidacyRepository.is_pair i u) (candidacies s)) = Some c →
  c ∈ candidacies s ∧ c = {| c_donationId := i; c_userId := u |}.
Proof.
  intros Hh. apply head_filter_Some in Hh as [Hc [Hi Hu]].
  split; [done|]. destruct c; simpl in *; by subst.
Qed.

(** X4: in a reachable store the multi-step writes of the service never stop
    half-way: no request ends with a missing-record error of the store, and
    the only unique-key error is a creation whose identifier is taken. So
    every request either returns or is refused by the service itself. *)
Theorem no_partial_writes r s :
  reachable s → at_most_id_clash r s.
Proof.
  intros Hs.
  pose proof (reachable_consistent s Hs) as Hcons.
  pose proof (reachable_progress_present s Hs) as Hpres.
  unfold at_most_id_clash, outcome.
  destruct r; simpl; exec; split_run; try done; bool_hyps; stable_hyps.
  all: try (by eauto 6).
  all: try (exfalso; by eapply open_no_progress).
  all: try match goal with
       | H : head _ = Some _, H' : defined (head _) = false |- _ =>
           by rewrite H in H'
       end.
  all: try match goal with
       | H : head _ = Some ?c, H' : ?c ∉ _ |- _ =>
           by apply found_candidacy_in_list in H as [? _]
       end.
  all: match goal with
       | H : donations _ !! ?i = Some ?d, Hp : progress _ !! ?i = None |- _ =>
           let Hsome := fresh in
           destruct (Hpres i d H) as [? Hsome]; [congruence|by rewrite Hp in Hsome]
       end.
Qed.

Lemma no_partial_writes_witness :
  reachable (Scenario.store_after Scenario.chosen)
  ∧ at_most_id_clash (ReqCancelReceiving "d1" "bob")
      (Scenario.store_after Scenario.chosen).
Proof.
  split; [apply reachable_store_after|].
  exact (no_partial_writes _ _ (reachable_store_after Scenario.chosen)).
Defined.

(** ** Applying and withdrawing *)

Lemma filter_out_last (l : list Candidacy) c :
  c ∉ l → filter (λ c', c' ≠ c) (l ++ [c]) = l.
Proof.
  intros Hc. rewrite filter_app.
  rewrite (filter_cons (λ c', c' ≠ c) c []).
  destruct (decide (c ≠ c)) as [?|_]; [done|].
  rewrite filter_nil, app_nil_r.
  induction l as [|x l IH]; [done|].
  apply not_elem_of_cons in Hc as [Hne Hc].
  rewrite filter_cons. destruct (decide (x ≠ c)) as [_|Heq].
  - f_equal. by apply IH.
  - by destruct Heq.
Qed.

Lemma find_candidacy_last s i u :
  ¬ has_candidacy s i u →
  head (filter (CandidacyRepository.is_pair i u)
          (candidacies s ++ [{| c_donationId := i; c_userId := u |}]))
  = Some {| c_donationId := i; c_userId := u |}.
Proof.
  intros Hc. apply find_candidacy_None, head_None in Hc.
  rewrite filter_app, Hc. simpl.
  rewrite filter_cons. by destruct (decide _) as [_|[]].
Qed.

Lemma applyForDonation_inv s i u c s1 :
  DonationService.applyForDonation i u s = (Ok c, s1) →
  ∃ d, donations s !! i = Some d
       ∧ donorId d ≠ u
       ∧ status d = OPEN
       ∧ ¬ has_candidacy s i u
       ∧ c = {| c_donationId := i; c_userId := u |}
       ∧ s1 = set_candidacies (λ l, l ++ [c]) s.
Proof.
  intros Hrun. exec. revert Hrun.
  split_run; intros Hrun; simplify_eq/=; bool_hyps; stable_hyps.
  eexists. repeat split; try done.
  by apply find_candidacy_None.
Qed.

(** X5: an application that is withdrawn leaves no trace: when
    [applyForDonation] succeeds, [withdrawCandidacy] by the same user on the
    same donation succeeds and gives back the store as it was before the
    application. *)
Theorem apply_then_withdraw s i u c s1 :
  DonationService.applyForDonation i u s = (Ok c, s1) →
  DonationService.withdrawCandidacy i u s1 = (Ok tt, s).
Proof.
  intros Hrun.
  apply applyForDonation_inv in Hrun as (d & Hd & Hu & Hst & Hno & -> & ->).
  exec. rewrite Hd. simpl.
  rewrite (find_candidacy_last s i u Hno). simpl.
  rewrite (bool_decide_eq_true_2 (status d = OPEN)) by done.
  rewrite bool_decide_eq_true_2 by (apply elem_of_app; right; left).
  simpl. rewrite filter_out_last by done. by destruct s.
Qed.

Lemma apply_then_withdraw_witness :
  DonationService.applyForDonation "d1" "dave" (Scenario.store_after Scenario.offered)
  = (Ok {| c_donationId := "d1"; c_userId := "dave" |},
     handle (ReqApplyForDonation "d1" "dave") (Scenario.store_after Scenario.offered))
  ∧ DonationService.withdrawCandidacy "d1" "dave"
      (handle (ReqApplyForDonation "d1" "dave") (Scenario.store_after Scenario.offered))
    = (Ok tt, Scenario.store_after Scenario.offered).
Proof.
  assert (DonationService.applyForDonation "d1" "dave"
            (Scenario.store_after Scenario.offered)
          = (Ok {| c_donationId := "d1"; c_userId := "dave" |},
             handle (ReqApplyForDonation "d1" "dave")
               (Scenario.store_after Scenario.offered))) as Hrun
    by (vm_compute; reflexivity).
  split; [exact Hrun|].
  exact (apply_then_withdraw _ _ _ _ _ Hrun).
Defined.

(** X6: candidates are listed in the order in which they applied: after a
    successful [applyForDonation] the donor's list of candidates is the list
    from before with the new candidacy at its end; anyone but the donor is
    refused the list with Forbidden. *)
Theorem candidates_in_order_of_application s i u c s1 d :
  donations s !! i = Some d →
  DonationService.applyForDonation i u s = (Ok c, s1) →
  ∃ before,
    DonationService.getDonationCandidates i (donorId d) s = (Ok before, s)
    ∧ DonationService.getDonationCandidates i (donorId d) s1
      = (Ok (before ++ [c]), s1)
    ∧ ∀ v, v ≠ donorId d →
        DonationService.getDonationCandidates i v s1
        = (Err (AppError ForbiddenError), s1).
Proof.
  intros Hd Hrun.
  apply applyForDonation_inv in Hrun as (d' & Hd' & Hu & Hst & Hno & -> & ->).
  assert (d' = d) as -> by congruence.
  unfold DonationService.getDonationCandidates, CandidacyRepository.findByDonation.
  exec. rewrite Hd. simpl.
  rewrite (bool_decide_eq_false_2 (donorId d ≠ donorId d)) by (by intros ?).
  simpl. eexists. split; [reflexivity|]. split.
  - rewrite filter_app, filter_cons. simpl.
    by destruct (decide (i = i)).
  - intros v Hv. by rewrite bool_decide_eq_true_2.
Qed.

Lemma candidates_in_order_of_application_witness :
  ∃ before,
    DonationService.getDonationCandidates "d1" "alice"
      (Scenario.store_after Scenario.offered)
    = (Ok before, Scenario.store_after Scenario.offered)
    ∧ DonationService.getDonationCandidates "d1" "alice"
        (handle (ReqApplyForDonation "d1" "dave") (Scenario.store_after Scenario.offered))
      = (Ok (before ++ [{| c_donationId := "d1"; c_userId := "dave" |}]),
         handle (ReqApplyForDonation "d1" "dave") (Scenario.store_after Scenario.offered))
    ∧ ∀ v, v ≠ "alice" →
        DonationService.getDonationCandidates "d1" v
          (handle (ReqApplyForDonation "d1" "dave")
             (Scenario.store_after Scenario.offered))
        = (Err (AppError ForbiddenError),
           handle (ReqApplyForDonation "d1" "dave")
             (Scenario.store_after Scenario.offered)).
Proof.
  assert (DonationService.applyForDonation "d1" "dave"
            (Scenario.store_after Scenario.offered)
          = (Ok {| c_donationId := "d1"; c_userId := "dave" |},
             handle (ReqApplyForDonation "d1" "dave")
               (Scenario.store_after Scenario.offered))) as Hrun
    by (vm_compute; reflexivity).
  exact (candidates_in_order_of_application _ "d1" "dave" _ _
           (Scenario.chair_of OPEN None None) store_after_offered Hrun).
Defined.

Lemma find_candidacy_found s i u :
  has_candidacy s i u →
  head (filter (CandidacyRepository.is_pair i u) (candidacies s))
  = Some {| c_donationId := i; c_userId := u |}.
Proof.
  intros Hc. destruct (head _) as [c|] eqn:Hh.
  - apply found_candidacy_in_list in Hh as [_ ->]. done.
  - by apply find_candidacy_None in Hh.
Qed.

(** X7: in a reachable store [withdrawCandidacy] on an existing donation has
    two outcomes only. A user without a candidacy gets NotFound and nothing
    changes; a user with one succeeds, that candidacy is removed and every
    other candidacy stays where it is. The two ValidationError exits of the
    method are never taken, since a donation that is not OPEN has no
    candidacies left. *)
Theorem withdrawCandidacy_outcomes s i u d :
  reachable s →
  donations s !! i = Some d →
  (¬ has_candidacy s i u →
     DonationService.withdrawCandidacy i u s = (Err (AppError NotFoundError), s))
  ∧ (has_candidacy s i u →
     let s' := handle (ReqWithdrawCandidacy i u) s in
     DonationService.withdrawCandidacy i u s = (Ok tt, s')
     ∧ candidacies s'
       = filter (λ c, c ≠ {| c_donationId := i; c_userId := u |}) (candidacies s)
     ∧ ¬ has_candidacy s' i u
     ∧ ∀ j v, (j, v) ≠ (i, u) → (has_candidacy s' j v ↔ has_candidacy s j v)).
Proof.
  intros Hs Hd. split.
  - intros Hno. apply find_candidacy_None in Hno.
    exec. rewrite Hd. simpl. by rewrite Hno.
  - intros Hc s'.
    destruct (reachable_candidacies s Hs) as [_ Hcand].
    destruct (Hcand _ Hc) as (d' & Hd' & Hst & _). simpl in Hd'.
    assert (d' = d) as -> by congruence.
    assert (candidacies s'
            = filter (λ c, c ≠ {| c_donationId := i; c_userId := u |}) (candidacies s))
      as Hs'.
    { subst s'. simpl. exec. rewrite Hd. simpl.
      rewrite (find_candidacy_found s i u Hc). simpl.
      rewrite (bool_decide_eq_true_2 (status d = OPEN)) by done.
      by rewrite (bool_decide_eq_true_2 _ Hc). }
    split; [|split; [done|split]].
    + subst s'. simpl. exec. rewrite Hd. simpl.
      rewrite (find_candidacy_found s i u Hc). simpl.
      rewrite (bool_decide_eq_true_2 (status d = OPEN)) by done.
      by rewrite (bool_decide_eq_true_2 _ Hc).
    + unfold has_candidacy. rewrite Hs'. intros Hin.
      by apply list_elem_of_filter in Hin as [Hne _].
    + intros j v Hne. unfold has_candidacy. rewrite Hs'.
      rewrite list_elem_of_filter. split; [by intros [_ ?]|].
      intros Hin. split; [|done]. intros [= -> ->]. done.
Qed.

Lemma withdrawCandidacy_outcomes_witness :
  DonationService.withdrawCandidacy "d1" "dave" (Scenario.store_after Scenario.offered)
  = (Err (AppError NotFoundError), Scenario.store_after Scenario.offered)
  ∧ DonationService.withdrawCandidacy "d1" "bob" (Scenario.store_after Scenario.offered)
    = (Ok tt, handle (ReqWithdrawCandidacy "d1" "bob")
                (Scenario.store_after Scenario.offered)).
Proof.
  destruct (withdrawCandidacy_outcomes _ "d1" "dave" _
              (reachable_store_after Scenario.offered) store_after_offered)
    as [Hnone _].
  destruct (withdrawCandidacy_outcomes _ "d1" "bob" _
              (reachable_store_after Scenario.offered) store_after_offered)
    as [_ Hsome].
  split.
  - apply Hnone. vm_compute.
    intros Hin. repeat (apply elem_of_cons in Hin as [Hin|Hin]; [discriminate|]).
    by apply not_elem_of_nil in Hin.
  - apply Hsome. exact bob_has_applied.
Defined.

Lemma filter_pair_length_pos s i u :
  (0 < length (filter (CandidacyRepository.is_pair i u) (candidacies s)))
  ↔ has_candidacy s i u.
Proof.
  split.
  - intros Hlen. destruct (filter _ _) as [|c l] eqn:Hf; [simpl in Hlen; lia|].
    assert (head (filter (CandidacyRepository.is_pair i u) (candidacies s)) = Some c)
      as Hh by (by rewrite Hf).
    apply found_candidacy_in_list in Hh as [Hin ->]. done.
  - intros Hc. apply find_candidacy_found in Hc.
    destruct (filter _ _); simpl in *; [done|lia].
Qed.

(** X8: the counting queries of the candidacy repository agree with its
    lists. [hasCandidacy] answers true exactly when the pair has a candidacy
    (when [findByDonationAndUser] finds one); [countByDonation] is the length
    of the donor's list of candidates; and [deleteAllByDonation] returns that
    count, leaves the donation with no candidates and leaves the candidates
    of every other donation as they are. *)
Theorem candidacy_counts s i u :
  (CandidacyRepository.hasCandidacy i u s
   = (Ok (bool_decide (has_candidacy s i u)), s))
  ∧ (∃ l, CandidacyRepository.findByDonation i s = (Ok l, s)
          ∧ CandidacyRepository.countByDonation i s = (Ok (length l), s)
          ∧ ∃ s', CandidacyRepository.deleteAllByDonation i s = (Ok (length l), s')
                  ∧ CandidacyRepository.findByDonation i s' = (Ok [], s')
                  ∧ ∀ j, j ≠ i →
                      ∃ lj, CandidacyRepository.findByDonation j s = (Ok lj, s)
                            ∧ CandidacyRepository.findByDonation j s' = (Ok lj, s')).
Proof.
  split.
  - unfold CandidacyRepository.hasCandidacy. exec. f_equal. f_equal.
    apply bool_decide_ext, filter_pair_length_pos.
  - eexists. split; [reflexivity|]. split; [reflexivity|].
    eexists. split; [reflexivity|]. simpl. split.
    + unfold CandidacyRepository.findByDonation. exec.
      by rewrite filter_other_donation_nil.
    + intros j Hj. unfold CandidacyRepository.findByDonation. exec.
      eexists. split; [reflexivity|]. f_equal. f_equal.
      induction (candidacies s) as [|c l IH]; [done|].
      rewrite (filter_cons (λ c, c_donationId c ≠ i)).
      destruct (decide (c_donationId c ≠ i)) as [Hne|Heq].
      * rewrite !filter_cons. by destruct (decide (c_donationId c = j)); rewrite IH.
      * apply dec_stable in Heq. rewrite IH.
        rewrite filter_cons. destruct (decide (c_donationId c = j)); [congruence|done].
Qed.

(** ** Creating and deleting donations *)

Ltac use_numbered Hone :=
  repeat match goal with
  | H : donations _ !! _ = Some _ |- _ =>
      let Hn := fresh "Hn" in
      destruct (Hone _ _ H) as [? (? & Hn & ?)];
      revert H
  end;
  intros; simplify_eq/=.

Ltac solve_numbered Hone :=
  let k := fresh "k" in
  let x := fresh "x" in
  let Hx := fresh "Hx" in
  intros k x Hx; lookup_hyp Hx; use_numbered Hone; simpl;
  (split; [done|]; eexists; split; [done|simpl; lia]).

Ltac solve_distinct Hone Hinj :=
  let k1 := fresh "k" in
  let k2 := fresh "k" in
  let x1 := fresh "x" in
  let x2 := fresh "x" in
  let Hx1 := fresh "Hx" in
  let Hx2 := fresh "Hx" in
  let Heq := fresh "Heq" in
  intros k1 k2 x1 x2 Hx1 Hx2 Heq; lookup_hyp Hx1; lookup_hyp Hx2; simpl in *;
  first [ done
        | by eapply Hinj
        | exfalso; use_numbered Hone; simpl in *; lia ].

Lemma sequential_handle r s : sequential_ok s → sequential_ok (handle r s).
Proof.
  intros (Hpos & Hone & Hinj).
  destruct r; simpl; exec; split_run; try done.
  all: split; [|split]; simpl.
  all: try done.
  all: try match goal with z : Z |- _ => assert (1 ≤ z)%Z by (by apply Hpos) end.
  all: try (intros n [= <-]; lia).
  all: try solve [solve_numbered Hone].
  all: try solve [solve_distinct Hone Hinj].
Qed.

Lemma reachable_sequential s : reachable s → sequential_ok s.
Proof.
  induction 1 as [us|r s _ IH]; [|by apply sequential_handle].
  split; [|split]; simpl.
  - done.
  - intros k d Hd. by rewrite lookup_empty in Hd.
  - intros k1 k2 d1 d2 Hd. by rewrite lookup_empty in Hd.
Qed.

(** X9: the human-friendly sequential numbers are sound in every reachable
    store: each donation is stored under its own identifier with a number
    between 1 and the current counter, and two different donations never
    carry the same number. *)
Theorem sequential_numbers_unique s :
  reachable s → sequential_ok s.
Proof. apply reachable_sequential. Qed.

Lemma sequential_numbers_unique_witness :
  reachable (Scenario.store_after Scenario.completed)
  ∧ sequential_ok (Scenario.store_after Scenario.completed).
Proof.
  split; [apply reachable_store_after|].
  exact (sequential_numbers_unique _ (reachable_store_after Scenario.completed)).
Defined.

(** X10: [createDonation] for an unknown donor fails with NotFound and writes
    nothing (the counter is not advanced). For a known donor, in a reachable
    store, it creates an OPEN donation of that donor with the given content,
    without receiver, return reason or candidates, whose sequential number is
    greater than the number of every donation there is. *)
Theorem createDonation_outcomes s newId donor data :
  reachable s →
  (donor ∉ users s →
     DonationService.createDonation newId donor data s
     = (Err (AppError NotFoundError), s))
  ∧ (donor ∈ users s → donations s !! newId = None →
     let s' := handle (ReqCreateDonation newId donor data) s in
     ∃ d,
       DonationService.createDonation newId donor data s = (Ok d, s')
       ∧ donations s' !! newId = Some d
       ∧ status d = OPEN
       ∧ donorId d = donor
       ∧ content d = data
       ∧ receiverId d = None
       ∧ returnReason d = None
       ∧ (∀ k d0, donations s !! k = Some d0 → (sequentialId d0 < sequentialId d)%Z)
       ∧ (∀ u, ¬ has_candidacy s' newId u)).
Proof.
  intros Hs. split.
  - intros Hu. exec. by rewrite bool_decide_eq_false_2.
  - intros Hu Hfree s'.
    destruct (reachable_sequential s Hs) as (_ & Hone & _).
    destruct (reachable_candidacies s Hs) as [_ Hcand].
    assert (∀ u, ¬ has_candidacy s newId u) as Hnone.
    { intros u Hc. destruct (Hcand _ Hc) as (d0 & Hd0 & _). simpl in Hd0.
      by rewrite Hfree in Hd0. }
    subst s'. simpl. exec. rewrite (bool_decide_eq_true_2 _ Hu). simpl.
    destruct (counter s) as [z|] eqn:Hz; simpl; rewrite Hfree; simpl.
    + eexists. repeat split; try done.
      * apply lookup_insert_eq.
      * intros k d0 Hd0. destruct (Hone k d0 Hd0) as [_ (n & Hn & Hle)].
        simpl. simplify_eq. lia.
    + eexists. repeat split; try done.
      * apply lookup_insert_eq.
      * intros k d0 Hd0. by destruct (Hone k d0 Hd0) as [_ (n & Hn & Hle)].
Qed.

Lemma createDonation_outcomes_witness :
  DonationService.createDonation "d2" "mallory" Scenario.chair
    (Scenario.store_after Scenario.offered)
  = (Err (AppError NotFoundError), Scenario.store_after Scenario.offered)
  ∧ ∃ d,
      DonationService.createDonation "d2" "carol" Scenario.chair
        (Scenario.store_after Scenario.offered)
      = (Ok d, handle (ReqCreateDonation "d2" "carol" Scenario.chair)
                 (Scenario.store_after Scenario.offered))
      ∧ sequentialId d = 2%Z.
Proof.
  destruct (createDonation_outcomes (Scenario.store_after Scenario.offered)
              "d2" "mallory" Scenario.chair
              (reachable_store_after Scenario.offered)) as [Hunknown _].
  destruct (createDonation_outcomes (Scenario.store_after Scenario.offered)
              "d2" "carol" Scenario.chair
              (reachable_store_after Scenario.offered)) as [_ Hknown].
  split.
  - apply Hunknown. apply (bool_decide_unpack _). vm_compute. exact I.
  - destruct Hknown as (d & Hrun & Hd & _).
    + apply (bool_decide_unpack _). vm_compute. exact I.
    + vm_compute. reflexivity.
    + exists d. split; [exact Hrun|].
      vm_compute in Hd. by injection Hd as <-.
Defined.


(** X11: [deleteDonation] is for the donor of an OPEN donation only. Anyone
    else gets Forbidden, the donor of a donation that is not OPEN gets
    ValidationError, and nothing is written. When it succeeds the donation is
    gone ([getDonation] answers NotFound) together with its candidacies, its
    Progress record and its edit history, and the candidacies of other
    donations stay. *)
Theorem deleteDonation_outcomes s i u d :
  donations s !! i = Some d →
  (donorId d ≠ u →
     DonationService.deleteDonation i u s = (Err (AppError ForbiddenError), s))
  ∧ (donorId d = u → status d ≠ OPEN →
     DonationService.deleteDonation i u s = (Err (AppError ValidationError), s))
  ∧ (donorId d = u → status d = OPEN →
     let s' := handle (ReqDeleteDonation i u) s in
     DonationService.deleteDonation i u s = (Ok tt, s')
     ∧ donations s' !! i = None
     ∧ DonationService.getDonation i s' = (Err (AppError NotFoundError), s')
     ∧ progress s' !! i = None
     ∧ (∀ v, ¬ has_candidacy s' i v)
     ∧ (∀ h, h ∈ editHistory s' → h_donationId h ≠ i)
     ∧ (∀ j v, j ≠ i → (has_candidacy s' j v ↔ has_candidacy s j v))).
Proof.
  intros Hd. split; [|split].
  - intros Hu. exec. rewrite Hd. simpl. by rewrite bool_decide_eq_true_2.
  - intros Hu Hst. exec. rewrite Hd. simpl.
    rewrite bool_decide_eq_false_2 by (by intros ?). simpl.
    by rewrite bool_decide_eq_true_2.
  - intros Hu Hst s'. subst s'. simpl. exec. rewrite Hd. simpl.
    rewrite !bool_decide_eq_false_2 by (by intros ?). simpl.
    rewrite Hd. simpl. rewrite !lookup_delete_eq.
    repeat split; try done.
    + intros v Hc. unfold has_candidacy in Hc. simpl in Hc.
      by apply list_elem_of_filter in Hc as [Hne _].
    + intros h Hh. by apply list_elem_of_filter in Hh as [Hne _].
    + unfold has_candidacy. simpl. rewrite list_elem_of_filter. by intros [_ ?].
    + unfold has_candidacy. simpl. rewrite list_elem_of_filter. done.
Qed.

Lemma deleteDonation_outcomes_witness :
  DonationService.deleteDonation "d1" "bob" (Scenario.store_after Scenario.offered)
  = (Err (AppError ForbiddenError), Scenario.store_after Scenario.offered)
  ∧ DonationService.deleteDonation "d1" "alice" (Scenario.store_after Scenario.chosen)
    = (Err (AppError ValidationError), Scenario.store_after Scenario.chosen)
  ∧ DonationService.deleteDonation "d1" "alice" (Scenario.store_after Scenario.offered)
    = (Ok tt, handle (ReqDeleteDonation "d1" "alice")
                (Scenario.store_after Scenario.offered)).
Proof.
  assert (donations (Scenario.store_after Scenario.chosen) !! "d1"
          = Some (Scenario.chair_of IN_PROGRESS (Some "bob") None)) as Hchosen
    by (vm_compute; reflexivity).
  destruct (deleteDonation_outcomes _ "d1" "bob" _ store_after_offered)
    as (Hforbidden & _ & _).
  destruct (deleteDonation_outcomes _ "d1" "alice" _ Hchosen) as (_ & Hinvalid & _).
  destruct (deleteDonation_outcomes _ "d1" "alice" _ store_after_offered)
    as (_ & _ & Hok).
  split; [apply Hforbidden; discriminate|].
  split; [apply Hinvalid; [reflexivity|discriminate]|].
  by destruct (Hok eq_refl eq_refl) as [Hrun _].
Defined.

(** X12: [cancelReceiving] is for the receiver while the donation is
    IN_PROGRESS. In a reachable store anyone else gets Forbidden (on an OPEN
    donation that is everyone, the donor included), the receiver of a
    donation that is past IN_PROGRESS gets ValidationError, and nothing is
    written. When it succeeds the donation is OPEN again without receiver,
    return reason or Progress record, users can apply for it, and the
    candidacies of the store are as they were. *)
Theorem cancelReceiving_outcomes s i u d :
  reachable s →
  donations s !! i = Some d →
  (receiverId d ≠ Some u →
     DonationService.cancelReceiving i u s = (Err (AppError ForbiddenError), s))
  ∧ (receiverId d = Some u → status d ≠ IN_PROGRESS →
     DonationService.cancelReceiving i u s = (Err (AppError ValidationError), s))
  ∧ (receiverId d = Some u → status d = IN_PROGRESS →
     let s' := handle (ReqCancelReceiving i u) s in
     DonationService.cancelReceiving i u s = (Ok tt, s')
     ∧ reopened s' i
     ∧ candidacies s' = candidacies s).
Proof.
  intros Hs Hd. split; [|split].
  - intros Hu. exec. rewrite Hd. simpl. by rewrite bool_decide_eq_true_2.
  - intros Hu Hst. exec. rewrite Hd. simpl.
    rewrite bool_decide_eq_false_2 by (by intros ?). simpl.
    by rewrite bool_decide_eq_true_2.
  - intros Hu Hst s'.
    destruct (reachable_progress_present s Hs i d Hd) as [p Hp]; [by rewrite Hst|].
    assert (DonationService.cancelReceiving i u s
            = (Ok tt, return_completed_store i d s)) as Hrun.
    { unfold return_completed_store. exec. rewrite Hd. simpl.
      rewrite !bool_decide_eq_false_2 by (by intros ?). simpl.
      rewrite Hd. simpl. by rewrite Hp. }
    subst s'. unfold handle. rewrite Hrun. simpl.
    split; [done|]. split; [|done].
    apply return_completed_store_reopened.
Qed.

Lemma cancelReceiving_outcomes_witness :
  DonationService.cancelReceiving "d1" "alice" (Scenario.store_after Scenario.chosen)
  = (Err (AppError ForbiddenError), Scenario.store_after Scenario.chosen)
  ∧ DonationService.cancelReceiving "d1" "bob" (Scenario.store_after Scenario.picked_up)
    = (Err (AppError ValidationError), Scenario.store_after Scenario.picked_up)
  ∧ reopened (handle (ReqCancelReceiving "d1" "bob")
                (Scenario.store_after Scenario.chosen)) "d1".
Proof.
  assert (donations (Scenario.store_after Scenario.chosen) !! "d1"
          = Some (Scenario.chair_of IN_PROGRESS (Some "bob") None)) as Hchosen
    by (vm_compute; reflexivity).
  assert (donations (Scenario.store_after Scenario.picked_up) !! "d1"
          = Some (Scenario.chair_of PICKED_UP (Some "bob") None)) as Hpicked
    by (vm_compute; reflexivity).
  destruct (cancelReceiving_outcomes _ "d1" "alice" _
              (reachable_store_after Scenario.chosen) Hchosen) as (Hforbidden & _ & _).
  destruct (cancelReceiving_outcomes _ "d1" "bob" _
              (reachable_store_after Scenario.picked_up) Hpicked)
    as (_ & Hinvalid & _).
  destruct (cancelReceiving_outcomes _ "d1" "bob" _
              (reachable_store_after Scenario.chosen) Hchosen) as (_ & _ & Hok).
  split; [apply Hforbidden; discriminate|].
  split; [apply Hinvalid; [reflexivity|discriminate]|].
  by destruct (Hok eq_refl eq_refl) as (_ & Hre & _).
Defined.

(** ** What [updateProgress] does to the donation *)

Lemma updateProgress_donation s i u updates d :
  donations s !! i = Some d →
  let s' := handle (ReqUpdateProgress i u updates) s in
  ∃ d',
    donations s' !! i = Some d'
    ∧ id d' = id d ∧ sequentialId d' = sequentialId d ∧ content d' = content d
    ∧ donorId d' = donorId d ∧ receiverId d' = receiverId d
    ∧ returnReason d' = returnReason d
    ∧ (status_rank (status d) ≤ status_rank (status d'))%nat
    ∧ (status d' ≠ status d →
       ∃ p', progress s' !! i = Some p'
             ∧ ((status d' = PICKED_UP ∧ status d = IN_PROGRESS ∧ pickup_confirmed p')
                ∨ (status d' = COMPLETED ∧ completion_confirmed p'))).
Proof.
  intros Hd s'. subst s'. simpl. exec. revert Hd.
  split_run; intros Hd; simplify_eq/=; bool_hyps.
  all: rewrite ?lookup_insert_eq.
  all: eexists; split; [done|]; simpl.
  all: do 6 (split; [done|]).
  all: split; [destruct (status d) eqn:?; simplify_eq/=; lia|].
  all: try (by intros ?).
  all: intros _; eexists; split; [done|]; simpl.
  all: first [ by left | by right ].
Qed.

Lemma updateProgress_keeps_lists s i u updates :
  candidacies (handle (ReqUpdateProgress i u updates) s) = candidacies s
  ∧ editHistory (handle (ReqUpdateProgress i u updates) s) = editHistory s
  ∧ users (handle (ReqUpdateProgress i u updates) s) = users s
  ∧ counter (handle (ReqUpdateProgress i u updates) s) = counter s.
Proof. simpl. exec. split_run; done. Qed.

(** X13: [updateProgress] only ever moves a donation forward. Whatever the
    request and whether it succeeds or not, the donation keeps its
    identifiers, content, donor, receiver and return reason, the candidacies
    and edit histories of the store are untouched, and the status does not go
    back. The status changes only to PICKED_UP (from IN_PROGRESS, with both
    pickup flags true in the record) or to COMPLETED (with both completion
    flags true); a confirmation taken back later leaves the status where it
    is. *)
Theorem updateProgress_only_advances s i u updates d :
  donations s !! i = Some d →
  let s' := handle (ReqUpdateProgress i u updates) s in
  (∃ d',
     donations s' !! i = Some d'
     ∧ id d' = id d ∧ sequentialId d' = sequentialId d ∧ content d' = content d
     ∧ donorId d' = donorId d ∧ receiverId d' = receiverId d
     ∧ returnReason d' = returnReason d
     ∧ (status_rank (status d) ≤ status_rank (status d'))%nat
     ∧ (status d' ≠ status d →
        ∃ p', progress s' !! i = Some p'
              ∧ ((status d' = PICKED_UP ∧ status d = IN_PROGRESS
                  ∧ pickup_confirmed p')
                 ∨ (status d' = COMPLETED ∧ completion_confirmed p'))))
  ∧ candidacies s' = candidacies s
  ∧ editHistory s' = editHistory s.
Proof.
  intros Hd s'. split; [by apply updateProgress_donation|].
  destruct (updateProgress_keeps_lists s i u updates) as (? & ? & _). done.
Qed.

Lemma updateProgress_only_advances_witness :
  let s := Scenario.store_after Scenario.picked_up in
  let s' := handle (ReqUpdateProgress "d1" "alice" unconfirm_pickup_by_donor) s in
  donations s !! "d1" = Some (Scenario.chair_of PICKED_UP (Some "bob") None)
  ∧ (pickupConfirmedByDonor <$> progress s' !! "d1") = Some false
  ∧ ∃ d', donations s' !! "d1" = Some d'
          ∧ (status_rank PICKED_UP ≤ status_rank (status d'))%nat.
Proof.
  intros s s'.
  assert (donations s !! "d1" = Some (Scenario.chair_of PICKED_UP (Some "bob") None))
    as Hd by (vm_compute; reflexivity).
  split; [exact Hd|]. split; [vm_compute; reflexivity|].
  destruct (updateProgress_only_advances s "d1" "alice" unconfirm_pickup_by_donor _ Hd)
    as [(d' & Hd' & _ & _ & _ & _ & _ & _ & Hrank & _) _].
  exists d'. split; [exact Hd'|exact Hrank].
Defined.

(** ** Returning a donation *)

Lemma signalReturn_ok s i r reason d p :
  donations s !! i = Some d →
  receiverId d = Some r →
  progress s !! i = Some p →
  pickup_confirmed p →
  DonationService.signalReturn i r reason s
  = (Ok tt,
     set_donations (insert i (DonationRepository.with_returnReason reason d))
       (set_progress
          (insert i (DonationProgressRepository.apply_partial
                       (DonationProgressRepository.only_returnSignaledByReceiver true) p))
          s)).
Proof.
  intros Hd Hr Hp [Hpd Hpr]. exec. rewrite Hd. simpl.
  rewrite bool_decide_eq_false_2 by (by intros ?). simpl.
  rewrite Hp. simpl. rewrite Hp. simpl. rewrite Hpd, Hpr. simpl.
  rewrite Hp. simpl. rewrite Hd. done.
Qed.

(** X14: COMPLETED is not the end of a donation. [signalReturn] does not look
    at the status: in a reachable store, for any donation that has a receiver
    (a COMPLETED one included) and whose two pickup flags are true, the
    receiver's [signalReturn] succeeds, and after the two [confirmReturn]
    calls the donation is OPEN again, without receiver, return reason or
    Progress record, and open to new applications. *)
Theorem return_after_completion s i d p reason :
  reachable s →
  donations s !! i = Some d →
  status d ≠ OPEN →
  progress s !! i = Some p →
  pickup_confirmed p →
  ∃ r,
    receiverId d = Some r
    ∧ DonationService.signalReturn i r reason s
      = (Ok tt, handle (ReqSignalReturn i r reason) s)
    ∧ reopened (run [ReqSignalReturn i r reason;
                     ReqConfirmReturn i (donorId d);
                     ReqConfirmReturn i r] s) i.
Proof.
  intros Hs Hd Hst Hp Hpick.
  destruct (reachable_receiver s i d Hs Hd Hst) as (r & Hr & Hne).
  exists r. split; [done|].
  pose proof (signalReturn_ok s i r reason d p Hd Hr Hp Hpick) as Hrun.
  unfold run. simpl. rewrite Hrun. simpl. split; [done|].
  set (s1 := set_donations _ _).
  apply (return_round_trip_parties s1 i
           (DonationRepository.with_returnReason reason d) r
           (DonationProgressRepository.apply_partial
              (DonationProgressRepository.only_returnSignaledByReceiver true) p)).
  - subst s1. simpl. apply lookup_insert_eq.
  - done.
  - done.
  - subst s1. simpl. apply lookup_insert_eq.
  - done.
Qed.

Lemma return_after_completion_witness :
  ∃ r,
    receiverId (Scenario.chair_of COMPLETED (Some "bob") None) = Some r
    ∧ DonationService.signalReturn "d1" r "changed my mind"
        (Scenario.store_after Scenario.completed)
      = (Ok tt, handle (ReqSignalReturn "d1" r "changed my mind")
                  (Scenario.store_after Scenario.completed))
    ∧ reopened (run [ReqSignalReturn "d1" r "changed my mind";
                     ReqConfirmReturn "d1" "alice";
                     ReqConfirmReturn "d1" r]
                  (Scenario.store_after Scenario.completed)) "d1".
Proof.
  apply (return_after_completion (Scenario.store_after Scenario.completed) "d1"
           (Scenario.chair_of COMPLETED (Some "bob") None)
           {| pickupConfirmedByDonor := true; pickupConfirmedByReceiver := true;
              completionConfirmedByDonor := true; completionConfirmedByReceiver := true;
              returnSignaledByReceiver := false; returnConfirmedByDonor := false;
              returnConfirmedByReceiver := false |}
           "changed my mind" (reachable_store_after Scenario.completed)
           store_after_completed).
  - discriminate.
  - vm_compute. reflexivity.
  - split; reflexivity.
Defined.

(** ** The flags and the status *)

Lemma no_donation_no_progress s k p :
  consistent s → donations s !! k = None → progress s !! k = Some p → False.
Proof.
  intros Hcons Hd Hp. pose proof (Hcons k) as Hk. rewrite Hd, Hp in Hk. done.
Qed.

Lemma flags_handle r s : consistent s → flags_ok s → flags_ok (handle r s).
Proof.
  intros Hcons Hfl.
  destruct r as [i ? ?|i ? ?|i ?|i ?|i ?|i ? ?|i ?|i ? ?|i ? ?|i ?];
    simpl; exec; split_run; try done; bool_hyps; stable_hyps.
  all: unfold flags_ok, pickup_confirmed, completion_confirmed; simpl.
  all: intros k x q Hx Hq; lookup_hyp Hx; lookup_hyp Hq; simpl in *.
  all: try (by eapply Hfl).
  all: try (exfalso; by eapply no_donation_no_progress).
  all: try (exfalso; by eapply open_no_progress).
  all: try (split; [intros [? ?]|intros [? ?]]; done).
  all: try (split; intros _; by auto).
  all: match goal with
       | Hd : donations _ !! _ = Some ?d, Ht : truthy_id (receiverId ?d) = true |- _ =>
           pose proof (receiver_not_open _ _ _ Hcons Hd Ht)
       end.
  all: split; intros [Ha Hb];
    repeat match goal with H : _ && _ = false |- _ => revert H end;
    rewrite ?Ha, ?Hb; simpl; intros;
    repeat case_bool_decide; simplify_eq/=; stable_hyps;
    try done; try (by auto).
  all: try congruence.
  all: match goal with |- context [status ?d] => by destruct (status d); auto end.
Qed.

Lemma reachable_flags s : reachable s → flags_ok s.
Proof.
  induction 1 as [us|r s Hs IH].
  - intros k d p Hd. simpl in Hd. by rewrite lookup_empty in Hd.
  - apply flags_handle; [by apply reachable_consistent|done].
Qed.

(** X15: what [getProgress] tells a party, in a reachable store. The call
    writes nothing and is refused (Forbidden) for anyone but the donor and the
    receiver. For a party it returns the donation with a summary in which
    [hasProgress] holds exactly when the donation has left OPEN,
    [pickupConfirmed] implies that the donation is PICKED_UP or COMPLETED, and
    [completionConfirmed] implies that it is COMPLETED. *)
Theorem getProgress_summary s i u d :
  reachable s →
  donations s !! i = Some d →
  if bool_decide (donorId d = u ∨ receiverId d = Some u)
  then
    ∃ sm,
      DonationService.getProgress i u s = (Ok (d, sm), s)
      ∧ (DonationProgressRepository.hasProgress sm = true ↔ status d ≠ OPEN)
      ∧ (DonationProgressRepository.pickupConfirmed sm = true →
         status d = PICKED_UP ∨ status d = COMPLETED)
      ∧ (DonationProgressRepository.completionConfirmed sm = true →
         status d = COMPLETED)
      ∧ DonationProgressRepository.canConfirmCompletion i s
        = (Ok (DonationProgressRepository.pickupConfirmed sm), s)
  else DonationService.getProgress i u s = (Err (AppError ForbiddenError), s).
Proof.
  intros Hs Hd.
  pose proof (reachable_consistent s Hs) as Hcons.
  pose proof (reachable_progress_present s Hs i d Hd) as Hpres.
  pose proof (reachable_flags s Hs i d) as Hfl.
  unfold DonationService.getProgress, DonationProgressRepository.getProgressSummary,
    DonationProgressRepository.canConfirmCompletion.
  exec. rewrite Hd. simpl.
  case_bool_decide as Hparty.
  - assert (negb (bool_decide (donorId d = u))
            && negb (bool_decide (receiverId d = Some u)) = false) as ->.
    { destruct Hparty as [?|?].
      - by rewrite bool_decide_eq_true_2.
      - rewrite (bool_decide_eq_true_2 (receiverId d = Some u)) by done.
        by rewrite andb_false_r. }
    simpl. destruct (progress s !! i) as [p|] eqn:Hp; simpl.
    + eexists. split; [done|]. simpl.
      destruct (Hfl p Hd eq_refl) as [Hpick Hcomp].
      split; [|split; [|split]].
      * split; [|done]. intros _ Hst. by eapply open_no_progress.
      * intros [? ?]%andb_true_iff. by apply Hpick.
      * intros [? ?]%andb_true_iff. by apply Hcomp.
      * done.
    + eexists. split; [done|]. simpl.
      split; [|done]. split; [done|].
      intros Hst. destruct (Hpres Hst) as [? ?]. done.
  - assert (negb (bool_decide (donorId d = u))
            && negb (bool_decide (receiverId d = Some u)) = true) as ->; [|done].
    rewrite !bool_decide_eq_false_2; [done| |]; intros ?; apply Hparty; auto.
Qed.

Lemma getProgress_summary_witness :
  reachable (Scenario.store_after Scenario.picked_up)
  ∧ donations (Scenario.store_after Scenario.picked_up) !! "d1"
    = Some (Scenario.chair_of PICKED_UP (Some "bob") None)
  ∧ ∃ sm,
      DonationService.getProgress "d1" "bob" (Scenario.store_after Scenario.picked_up)
      = (Ok (Scenario.chair_of PICKED_UP (Some "bob") None, sm),
         Scenario.store_after Scenario.picked_up)
      ∧ DonationProgressRepository.pickupConfirmed sm = true.
Proof.
  assert (donations (Scenario.store_after Scenario.picked_up) !! "d1"
          = Some (Scenario.chair_of PICKED_UP (Some "bob") None)) as Hd
    by (vm_compute; reflexivity).
  split; [apply reachable_store_after|]. split; [exact Hd|].
  pose proof (getProgress_summary _ "d1" "bob" _
                (reachable_store_after Scenario.picked_up) Hd) as Hsum.
  rewrite bool_decide_eq_true_2 in Hsum by (by right).
  destruct Hsum as (sm & Hrun & _ & _ & _ & Hcan).
  exists sm. split; [exact Hrun|].
  vm_compute in Hcan. injection Hcan as Hcan. symmetry. exact Hcan.
Defined.


(** X16: in every reachable store the confirmations recorded in a Progress
    record are reflected in the status of its donation: when both pickup
    flags are true the donation is PICKED_UP or COMPLETED, and when both
    completion flags are true it is COMPLETED. (The converse does not hold: a
    confirmation can be taken back and the status stays.) *)
Theorem confirmed_flags_imply_status s k d p :
  reachable s →
  donations s !! k = Some d →
  progress s !! k = Some p →
  (pickup_confirmed p → status d = PICKED_UP ∨ status d = COMPLETED)
  ∧ (completion_confirmed p → status d = COMPLETED).
Proof. intros Hs. by apply reachable_flags. Qed.

Lemma confirmed_flags_imply_status_witness :
  ∃ p,
    progress (Scenario.store_after Scenario.completed) !! "d1" = Some p
    ∧ completion_confirmed p
    ∧ status (Scenario.chair_of COMPLETED (Some "bob") None) = COMPLETED.
Proof.
  eexists. split; [vm_compute; reflexivity|].
  split; [split; reflexivity|].
  refine (proj2 (confirmed_flags_imply_status
                   (Scenario.store_after Scenario.completed) "d1" _ _
                   (reachable_store_after Scenario.completed)
                   store_after_completed _) _).
  - vm_compute. reflexivity.
  - split; reflexivity.
Defined.

(** ** Editing a donation *)

Lemma given_fields_elem (l : list (string * option string)) key v :
  (list_to_map
     (omap (λ kv : string * option string, (λ s, (kv.1, JString s)) <$> kv.2) l)
   : gmap string jsval) !! key = Some v →
  ∃ s, (key, Some s) ∈ l ∧ v = JString s.
Proof.
  induction l as [|[k [s|]] l IH]; simpl.
  - by rewrite lookup_empty.
  - rewrite lookup_insert. case_decide as Hk.
    + intros [= <-]. subst. exists s. split; [left|done].
    + intros Hv. destruct (IH Hv) as (s' & Hin & ->). exists s'. split; [by right|done].
  - intros Hv. destruct (IH Hv) as (s' & Hin & ->). exists s'. split; [by right|done].
Qed.

(** After [update], the document holds every value that was given. *)
Lemma updated_fields_agree data d key v :
  update_obj data !! key = Some v →
  js_get (donation_obj
            {| id := id d; sequentialId := sequentialId d;
               content := DonationRepository.apply_update data (content d);
               status := status d; donorId := donorId d; receiverId := receiverId d;
               returnReason := returnReason d |}) key = v.
Proof.
  intros Hv. apply given_fields_elem in Hv as (s & Hin & ->).
  unfold js_get, donation_obj. simpl.
  repeat (apply elem_of_cons in Hin as [[= -> Hs]|Hin];
          [frame_lookup; rewrite lookup_insert_eq; simpl; by rewrite <- Hs|]).
  by apply not_elem_of_nil in Hin.
Qed.

Lemma content_field_string d key :
  key ∈ content_keys → ∃ s, js_get (donation_obj d) key = JString s.
Proof.
  intros Hin. unfold js_get, donation_obj, content_keys in *. simpl.
  repeat (apply elem_of_cons in Hin as [->|Hin];
          [frame_lookup; rewrite lookup_insert_eq; simpl; by eexists|]).
  by apply not_elem_of_nil in Hin.
Qed.

Lemma update_obj_key data key v :
  update_obj data !! key = Some v → key ∈ content_keys ∧ ∃ s, v = JString s.
Proof.
  intros Hv. apply given_fields_elem in Hv as (s & Hin & ->).
  split; [|by exists s]. unfold content_keys.
  repeat (apply elem_of_cons in Hin as [[= -> _]|Hin]; [set_solver|]).
  by apply not_elem_of_nil in Hin.
Qed.

Lemma diff_entry_ok d data key fc :
  getObjectDifferences (donation_obj d) (update_obj data) !! key = Some fc →
  key ∈ content_keys
  ∧ (∃ old new, oldValue fc = JString old ∧ newValue fc = JString new)
  ∧ oldValue fc ≠ newValue fc.
Proof.
  intros Hfc. apply getObjectDifferences_lookup in Hfc as (v & Hv & _ & Hne & ->).
  apply update_obj_key in Hv as [Hkey [new ->]].
  destruct (content_field_string d key Hkey) as [old Hold].
  split; [done|]. simpl. split; [by exists old, new|done].
Qed.

Lemma history_handle r s : history_ok s → history_ok (handle r s).
Proof.
  intros Hh.
  destruct r; simpl; exec; split_run; try done; bool_hyps.
  all: unfold history_ok; simpl; intros h Hin.
  - apply elem_of_app in Hin as [Hin|Hin%list_elem_of_singleton]; [by apply Hh|].
    subst h. simpl. split.
    + intros Hempty. unfold keys_length in *.
      match goal with H : ¬ (size _ = 0)%nat |- _ => apply H end.
      by rewrite Hempty, map_size_empty.
    + intros key fc. apply diff_entry_ok.
  - apply list_elem_of_filter in Hin as [_ Hin]. by apply Hh.
Qed.

Lemma reachable_history s : reachable s → history_ok s.
Proof.
  induction 1 as [us|r s Hs IH]; [|by apply history_handle].
  intros h Hin. simpl in Hin. by apply not_elem_of_nil in Hin.
Qed.

(** X17: in every reachable store no edit-history entry is empty, and every
    change an entry records is of one of the ten content fields, from one
    string to a different string: identifiers, status, donor, receiver and
    return reason never appear in a history, and neither does a field given
    with the value it already had. *)
Theorem edit_history_entries s :
  reachable s → history_ok s.
Proof. apply reachable_history. Qed.

Lemma edit_history_entries_witness :
  let s := handle (ReqUpdateDonation "d1" "alice" (title_and_city "Wooden chair" "Contagem"))
             (Scenario.store_after Scenario.offered) in
  reachable s
  ∧ (changedFields <$> editHistory s)
    = [ {[ "city" := {| oldValue := JString "Belo Horizonte";
                        newValue := JString "Contagem" |} ]} ]
  ∧ history_ok s.
Proof.
  intros s.
  assert (reachable s) as Hs by (constructor; apply reachable_store_after).
  split; [exact Hs|]. split; [vm_compute; reflexivity|].
  exact (edit_history_entries s Hs).
Defined.

(** X18: [updateDonation] is idempotent: when a call returns, the same call on
    the store it leaves returns the same donation and writes nothing, no
    second history entry included. *)
Theorem updateDonation_idempotent s i u data d' s' :
  DonationService.updateDonation i u data s = (Ok d', s') →
  DonationService.updateDonation i u data s' = (Ok d', s').
Proof.
  intros Hrun.
  destruct (donations s !! i) as [d|] eqn:Hd;
    [|exec; rewrite Hd in Hrun; done].
  destruct (decide (donorId d = u)) as [Hu|Hu];
    [|exec; rewrite Hd in Hrun; simpl in Hrun;
      rewrite bool_decide_eq_true_2 in Hrun by done; done].
  destruct (decide (status d = OPEN)) as [Hst|Hst];
    [|exec; rewrite Hd in Hrun; simpl in Hrun;
      rewrite (bool_decide_eq_false_2 (donorId d ≠ u)) in Hrun by (by intros ?);
      rewrite bool_decide_eq_true_2 in Hrun by done; done].
  destruct (decide (getObjectDifferences (donation_obj d) (update_obj data) = ∅))
    as [Hsame|Hdiff].
  - rewrite (updateDonation_unchanged s i u data d Hd Hu Hst Hsame) in Hrun.
    simplify_eq. by apply updateDonation_unchanged.
  - assert (DonationService.updateDonation i u data s
            = (Ok {| id := id d; sequentialId := sequentialId d;
                     content := DonationRepository.apply_update data (content d);
                     status := status d; donorId := donorId d;
                     receiverId := receiverId d; returnReason := returnReason d |},
               handle (ReqUpdateDonation i u data) s)
            ∧ donations (handle (ReqUpdateDonation i u data) s) !! i
              = Some {| id := id d; sequentialId := sequentialId d;
                        content := DonationRepository.apply_update data (content d);
                        status := status d; donorId := donorId d;
                        receiverId := receiverId d; returnReason := returnReason d |})
      as [Hrun' Hd'].
    { simpl. exec. rewrite Hd. simpl.
      rewrite !bool_decide_eq_false_2 by (by intros ?). simpl.
      unfold keys_length.
      rewrite bool_decide_eq_false_2 by (by rewrite map_size_empty_iff).
      rewrite Hd. simpl. split; [done|]. apply lookup_insert_eq. }
    rewrite Hrun' in Hrun. injection Hrun as <- <-.
    apply updateDonation_unchanged; [done|done|done|].
    apply map_eq. intros key. rewrite lookup_empty.
    apply getObjectDifferences_None. intros v Hv. right.
    by apply updated_fields_agree.
Qed.

Lemma updateDonation_idempotent_witness :
  let s := Scenario.store_after Scenario.offered in
  let r := ReqUpdateDonation "d1" "alice" (only_title "Oak chair") in
  ∃ d', DonationService.updateDonation "d1" "alice" (only_title "Oak chair") s
        = (Ok d', handle r s)
        ∧ DonationService.updateDonation "d1" "alice" (only_title "Oak chair") (handle r s)
          = (Ok d', handle r s).
Proof.
  intros s r.
  destruct (updateDonation_changed s "d1" "alice" (only_title "Oak chair")
              (Scenario.chair_of OPEN None None) store_after_offered eq_refl eq_refl)
    as (d' & Hrun & _).
  { vm_compute. discriminate. }
  exists d'. split; [exact Hrun|].
  exact (updateDonation_idempotent _ _ _ _ _ _ Hrun).
Defined.

(** X19: [updateDonation] edits the content and nothing else. Whatever the
    request and whether it returns or throws, the donation keeps its
    identifier, sequential number, status, donor, receiver and return reason,
    and the candidacies, Progress records, counter and other donations of the
    store are untouched. The content changes only when the caller is the donor
    and the donation is OPEN, and then every field that was not given keeps
    its value. *)
Theorem updateDonation_edits_content_only s i u data d :
  donations s !! i = Some d →
  let s' := handle (ReqUpdateDonation i u data) s in
  (∃ d',
     donations s' !! i = Some d'
     ∧ id d' = id d ∧ sequentialId d' = sequentialId d ∧ status d' = status d
     ∧ donorId d' = donorId d ∧ receiverId d' = receiverId d
     ∧ returnReason d' = returnReason d
     ∧ (content d' = content d
        ∨ (donorId d = u ∧ status d = OPEN
           ∧ content d' = DonationRepository.apply_update data (content d))))
  ∧ candidacies s' = candidacies s
  ∧ progress s' = progress s
  ∧ counter s' = counter s
  ∧ ∀ j, j ≠ i → donations s' !! j = donations s !! j.
Proof.
  intros Hd s'. subst s'. simpl. exec. revert Hd.
  split_run; intros Hd; simplify_eq/=; bool_hyps; stable_hyps.
  all: split; [|repeat split; try done; intros; by frame_lookup].
  all: rewrite ?lookup_insert_eq.
  all: eexists; split; [done|]; simpl.
  all: do 6 (split; [done|]).
  all: first [ by left | by right ].
Qed.

Lemma updateDonation_edits_content_only_witness :
  let s := Scenario.store_after Scenario.offered in
  let s' := handle (ReqUpdateDonation "d1" "alice" (only_title "Oak chair")) s in
  donations s !! "d1" = Some (Scenario.chair_of OPEN None None)
  ∧ ∃ d', donations s' !! "d1" = Some d'
          ∧ title (content d') = "Oak chair"
          ∧ status d' = OPEN
          ∧ candidacies s' = candidacies s.
Proof.
  intros s s'.
  destruct (updateDonation_edits_content_only s "d1" "alice" (only_title "Oak chair")
              _ store_after_offered)
    as [(d' & Hd' & _ & _ & Hst & _) (Hc & _)].
  split; [exact store_after_offered|].
  exists d'. split; [exact Hd'|]. split; [|split; [exact Hst|exact Hc]].
  vm_compute in Hd'. by injection Hd' as <-.
Defined.

(** X20: the edit history of a donation is listed newest first. After an
    update of an OPEN donation by its donor that changes something,
    [getDonationEditHistory] returns the entry of that update, with the diff
    against the donation as it was, followed by what it returned before; the
    histories of the other donations are what they were. For an identifier
    with no donation the call throws NotFound. *)
Theorem edit_history_newest_first s i u data d l :
  donations s !! i = Some d →
  donorId d = u →
  status d = OPEN →
  getObjectDifferences (donation_obj d) (update_obj data) ≠ ∅ →
  DonationService.getDonationEditHistory i s = (Ok l, s) →
  let s' := handle (ReqUpdateDonation i u data) s in
  DonationService.getDonationEditHistory i s'
  = (Ok ({| h_donationId := i;
            changedFields := getObjectDifferences (donation_obj d) (update_obj data) |}
         :: l), s')
  ∧ (∀ j, j ≠ i →
       (DonationService.getDonationEditHistory j s').1
       = (DonationService.getDonationEditHistory j s).1)
  ∧ (∀ j, donations s' !! j = None →
       DonationService.getDonationEditHistory j s' = (Err (AppError NotFoundError), s')).
Proof.
  intros Hd Hu Hst Hdiff Hl s'.
  destruct (updateDonation_changed s i u data d Hd Hu Hst Hdiff)
    as (d' & _ & Hd' & _ & Hh).
  assert (∀ j, j ≠ i → donations s' !! j = donations s !! j) as Hframe.
  { intros j Hj. by apply (handle_frame (ReqUpdateDonation i u data) s j). }
  fold s' in Hd', Hh.
  unfold DonationService.getDonationEditHistory,
    DonationRepository.getDonationEditHistory in *.
  exec. rewrite Hd in Hl. simpl in Hl. injection Hl as <-.
  split; [|split].
  - rewrite Hd'. simpl. rewrite Hh, filter_app, reverse_app.
    rewrite filter_cons. simpl. destruct (decide (i = i)); [|done]. done.
  - intros j Hj. rewrite (Hframe j Hj).
    destruct (donations s !! j); [|done]. simpl.
    rewrite Hh, filter_app, filter_cons. simpl.
    destruct (decide (i = j)); [by subst|]. by rewrite filter_nil, app_nil_r.
  - intros j Hj. by rewrite Hj.
Qed.

Lemma edit_history_newest_first_witness :
  let s := handle (ReqUpdateDonation "d1" "alice" (only_title "Oak chair"))
             (Scenario.store_after Scenario.offered) in
  let s' := handle (ReqUpdateDonation "d1" "alice" (title_and_city "Oak chair" "Contagem")) s in
  let old := {| h_donationId := "d1";
                changedFields :=
                  {[ "title" := {| oldValue := JString "Wooden chair";
                                   newValue := JString "Oak chair" |} ]} |} in
  DonationService.getDonationEditHistory "d1" s = (Ok [old], s)
  ∧ (DonationService.getDonationEditHistory "d1" s').1
    = Ok [ {| h_donationId := "d1";
              changedFields :=
                {[ "city" := {| oldValue := JString "Belo Horizonte";
                                newValue := JString "Contagem" |} ]} |};
           old ].
Proof.
  intros s s' old.
  assert (DonationService.getDonationEditHistory "d1" s = (Ok [old], s)) as Hold
    by (vm_compute; reflexivity).
  split; [exact Hold|].
  assert (donations s !! "d1"
          = Some {| id := "d1"; sequentialId := 1;
                    content := DonationRepository.apply_update (only_title "Oak chair")
                                 Scenario.chair;
                    status := OPEN; donorId := "alice"; receiverId := None;
                    returnReason := None |}) as Hd by (vm_compute; reflexivity).
  destruct (edit_history_newest_first s "d1" "alice"
              (title_and_city "Oak chair" "Contagem") _ [old] Hd eq_refl eq_refl)
    as (Hnew & _).
  - vm_compute. discriminate.
  - exact Hold.
  - fold s' in Hnew. rewrite Hnew. vm_compute. reflexivity.
Defined.

(** ** The helpers *)

Lemma remove_non_digits_app (a b : string) :
  remove_non_digits (a +:+ b) = remove_non_digits a +:+ remove_non_digits b.
Proof.
  induction a as [|c a IH]; simpl; [done|].
  destruct (is_digit c); simpl; by rewrite IH.
Qed.

Lemma remove_non_digits_all_digits s : all_digits (remove_non_digits s) = true.
Proof.
  induction s as [|c s IH]; simpl; [done|].
  destruct (is_digit c) eqn:Hc; simpl; [by rewrite Hc|done].
Qed.

Lemma remove_non_digits_id s : all_digits s = true → remove_non_digits s = s.
Proof.
  induction s as [|c s IH]; simpl; [done|].
  intros [Hc Hs]%andb_true_iff. rewrite Hc. by rewrite IH.
Qed.

Lemma remove_non_digits_length s :
  (String.length (remove_non_digits s) ≤ String.length s)%nat.
Proof.
  induction s as [|c s IH]; simpl; [done|].
  destruct (is_digit c); simpl; lia.
Qed.

Lemma take_digits_split n s rest :
  take_digits n s = Some rest →
  ∃ ds, s = ds +:+ rest ∧ String.length ds = n ∧ all_digits ds = true.
Proof.
  revert s. induction n as [|n IH]; intros s; simpl.
  - intros [= ->]. by exists EmptyString.
  - destruct s as [|c s]; [done|].
    destruct (is_digit c) eqn:Hc; [|done].
    intros Hrest. destruct (IH s Hrest) as (ds & -> & Hlen & Hds).
    exists (String c ds). simpl. rewrite Hc, Hlen. done.
Qed.

Lemma take_digits_app n ds rest :
  String.length ds = n → all_digits ds = true → take_digits n (ds +:+ rest) = Some rest.
Proof.
  revert ds. induction n as [|n IH]; intros [|c ds]; simpl; try done.
  intros [= Hlen] [Hc Hds]%andb_true_iff. rewrite Hc. by apply IH.
Qed.

Lemma string_app_length (a b : string) :
  String.length (a +:+ b) = (String.length a + String.length b)%nat.
Proof.
  induction a as [|c a IH]; [done|].
  change (String c a +:+ b) with (String c (a +:+ b)). simpl. by rewrite IH.
Qed.

Lemma string_app_empty (a : string) : a +:+ EmptyString = a.
Proof.
  induction a as [|c a IH]; [done|].
  change (String c a +:+ EmptyString) with (String c (a +:+ EmptyString)).
  by rewrite IH.
Qed.

Lemma all_digits_app (a b : string) :
  all_digits (a +:+ b) = all_digits a && all_digits b.
Proof.
  induction a as [|c a IH]; simpl; [done|]. by rewrite IH, andb_assoc.
Qed.

(** X21: [formatPostalCode] and [formatPhone] return digits only, never a longer
    string than they were given, and formatting twice is formatting once; a
    string of digits is returned as it is. *)
Theorem formatPostalCode_digits_only s :
  all_digits (formatPostalCode s) = true
  ∧ (String.length (formatPostalCode s) ≤ String.length s)%nat
  ∧ formatPostalCode (formatPostalCode s) = formatPostalCode s
  ∧ formatPhone s = formatPostalCode s
  ∧ (all_digits s = true ↔ formatPostalCode s = s).
Proof.
  unfold formatPostalCode, formatPhone.
  split; [apply remove_non_digits_all_digits|].
  split; [apply remove_non_digits_length|].
  split; [apply remove_non_digits_id, remove_non_digits_all_digits|].
  split; [done|]. split; [apply remove_non_digits_id|].
  intros <-. apply remove_non_digits_all_digits.
Qed.

(** X22: a postal code that the donation schema accepts (five digits, an
    optional hyphen, three digits) is formatted by [formatPostalCode] to its
    eight digits, and the result is again a postal code that the schema
    accepts. *)
Theorem formatPostalCode_of_accepted s :
  postalCode_regex s = true →
  String.length (formatPostalCode s) = 8%nat
  ∧ all_digits (formatPostalCode s) = true
  ∧ postalCode_regex (formatPostalCode s) = true.
Proof.
  unfold postalCode_regex, formatPostalCode. intros Hre.
  destruct (take_digits 5 s) as [rest|] eqn:H5; [|done].
  apply take_digits_split in H5 as (d5 & -> & Hl5 & Hd5).
  set (rest' := match rest with String "-"%char r => r | _ => rest end) in Hre.
  destruct (take_digits 3 rest') as [tl|] eqn:H3; [|done].
  destruct tl; [|done].
  apply take_digits_split in H3 as (d3 & Hrest' & Hl3 & Hd3).
  assert (remove_non_digits rest = d3) as Hrest.
  { rewrite string_app_empty in Hrest'. rename Hrest' into Hd.
    subst rest'. destruct rest as [|c r]; [by rewrite <- Hd|].
    destruct (decide (c = "-"%char)) as [->|Hc].
    - simpl. rewrite Hd in *. by apply remove_non_digits_id.
    - assert (String c r = d3) as <-.
      { rewrite <- Hd. destruct c as [[] [] [] [] [] [] [] []]; try done. }
      by apply remove_non_digits_id. }
  rewrite remove_non_digits_app, Hrest, (remove_non_digits_id d5 Hd5).
  split; [by rewrite string_app_length, Hl5, Hl3|].
  split; [by rewrite all_digits_app, Hd5, Hd3|].
  rewrite (take_digits_app 5 d5 d3 Hl5 Hd5).
  assert (match d3 with String "-"%char r => r | _ => d3 end = d3) as ->.
  { destruct d3 as [|c r]; [done|]. simpl in Hd3.
    apply andb_true_iff in Hd3 as [Hc _].
    destruct c as [[] [] [] [] [] [] [] []]; done. }
  pose proof (take_digits_app 3 d3 EmptyString Hl3 Hd3) as Htl.
  rewrite string_app_empty in Htl. by rewrite Htl.
Qed.

Lemma formatPostalCode_of_accepted_witness :
  postalCode_regex "30130-000" = true
  ∧ formatPostalCode "30130-000" = "30130000"
  ∧ String.length (formatPostalCode "30130-000") = 8%nat.
Proof.
  split; [reflexivity|]. split; [reflexivity|].
  exact (proj1 (formatPostalCode_of_accepted "30130-000" eq_refl)).
Defined.



(** ** Listings and resets *)

(** X24: [getMyCandidacies] in a reachable store: the list has no duplicates
    and holds exactly the candidacies of the user; each is for an existing
    donation that is OPEN and is not the user's own; and an application that
    succeeds comes first in the next listing, before everything listed so
    far. *)
Theorem getMyCandidacies_lists_open_applications s u :
  reachable s →
  ∃ l,
    DonationService.getMyCandidacies u s = (Ok l, s)
    ∧ NoDup l
    ∧ (∀ c, c ∈ l ↔ c_userId c = u ∧ has_candidacy s (c_donationId c) u)
    ∧ (∀ c, c ∈ l →
         ∃ d, donations s !! c_donationId c = Some d
              ∧ status d = OPEN ∧ donorId d ≠ u)
    ∧ ∀ i c s',
        DonationService.applyForDonation i u s = (Ok c, s') →
        DonationService.getMyCandidacies u s' = (Ok (c :: l), s').
Proof.
  intros Hs. destruct (reachable_candidacies s Hs) as [Hnd Hcand].
  unfold DonationService.getMyCandidacies, CandidacyRepository.findByUser, gets.
  eexists. split; [done|].
  split; [rewrite reverse_Permutation; by apply NoDup_filter|].
  split; [|split].
  - intros [i v]. rewrite elem_of_reverse, list_elem_of_filter.
    unfold has_candidacy. simpl. split.
    + intros [-> Hin]. done.
    + intros [-> Hin]. done.
  - intros c [Hu Hin]%elem_of_reverse%list_elem_of_filter.
    destruct (Hcand c Hin) as (d & Hd & Hst & Hne).
    exists d. by rewrite <- Hu.
  - intros i c s' Happ.
    apply applyForDonation_inv in Happ as (d & _ & _ & _ & _ & -> & ->).
    simpl. rewrite filter_app, reverse_app, filter_cons. simpl.
    destruct (decide (u = u)); [|done]. done.
Qed.

Lemma getMyCandidacies_lists_open_applications_witness :
  ∃ l,
    DonationService.getMyCandidacies "bob" (Scenario.store_after Scenario.offered)
    = (Ok l, Scenario.store_after Scenario.offered)
    ∧ l = [ {| c_donationId := "d1"; c_userId := "bob" |} ].
Proof.
  destruct (getMyCandidacies_lists_open_applications
              (Scenario.store_after Scenario.offered) "bob"
              (reachable_store_after Scenario.offered)) as (l & Hrun & _).
  exists l. split; [exact Hrun|].
  vm_compute in Hrun. by injection Hrun as <-.
Defined.

(** X25: in a reachable store [getDonation] returns a donation that has a
    receiver together with its Progress record, never with a missing one, and
    a donation without receiver as it is; it throws NotFound when there is no
    such donation. It writes nothing. *)
Theorem getDonation_details s i :
  reachable s →
  match donations s !! i with
  | None => DonationService.getDonation i s = (Err (AppError NotFoundError), s)
  | Some d =>
      if truthy_id (receiverId d)
      then ∃ p, progress s !! i = Some p
                ∧ DonationService.getDonation i s = (Ok (WithProgress d (Some p)), s)
      else DonationService.getDonation i s = (Ok (Plain d), s)
  end.
Proof.
  intros Hs. exec. destruct (donations s !! i) as [d|] eqn:Hd; [|done]. simpl.
  destruct (truthy_id (receiverId d)) eqn:Ht; [|done].
  pose proof (receiver_not_open s i d (reachable_consistent s Hs) Hd Ht) as Hst.
  destruct (reachable_progress_present s Hs i d Hd Hst) as [p Hp].
  exists p. by rewrite Hp.
Qed.

Lemma getDonation_details_witness :
  reachable (Scenario.store_after Scenario.chosen)
  ∧ ∃ p, DonationService.getDonation "d1" (Scenario.store_after Scenario.chosen)
         = (Ok (WithProgress (Scenario.chair_of IN_PROGRESS (Some "bob") None) (Some p)),
            Scenario.store_after Scenario.chosen).
Proof.
  split; [apply reachable_store_after|].
  pose proof (getDonation_details (Scenario.store_after Scenario.chosen) "d1"
                (reachable_store_after Scenario.chosen)) as Hget.
  assert (donations (Scenario.store_after Scenario.chosen) !! "d1"
          = Some (Scenario.chair_of IN_PROGRESS (Some "bob") None)) as Hd
    by (vm_compute; reflexivity).
  rewrite Hd in Hget. cbn [Scenario.chair_of receiverId truthy_id negb] in Hget.
  rewrite bool_decide_eq_false_2 in Hget by discriminate. cbn [negb] in Hget.
  destruct Hget as (p & _ & Hrun). by exists p.
Defined.

(** X26: the two ways of deleting a candidacy agree. On every store
    [deleteByDonationAndUser] does what [delete] does for the candidacy found
    under the pair: both remove it and leave the others, both end with the
    store's missing-record error when there is none; and after a deletion
    that returns, [hasCandidacy] for the pair is false. *)
Theorem deleteByDonationAndUser_as_delete s i u :
  CandidacyRepository.deleteByDonationAndUser i u s
  = CandidacyRepository.delete {| c_donationId := i; c_userId := u |} s
  ∧ (if bool_decide (has_candidacy s i u)
     then ∃ s', CandidacyRepository.deleteByDonationAndUser i u s = (Ok tt, s')
                ∧ CandidacyRepository.hasCandidacy i u s' = (Ok false, s')
                ∧ ∀ c, c ≠ {| c_donationId := i; c_userId := u |} →
                       c ∈ candidacies s' ↔ c ∈ candidacies s
     else CandidacyRepository.deleteByDonationAndUser i u s = (Err P2025, s)).
Proof.
  assert (∀ l : list Candidacy,
            filter (λ c, ¬ CandidacyRepository.is_pair i u c) l
            = filter (λ c', c' ≠ {| c_donationId := i; c_userId := u |}) l) as Hfilter.
  { intros l. apply list_filter_iff. intros [j v].
    unfold CandidacyRepository.is_pair. simpl. split.
    - intros Hne Heq. injection Heq as -> ->. by apply Hne.
    - intros Hne Hp. destruct Hp as [-> ->]. by apply Hne. }
  unfold CandidacyRepository.deleteByDonationAndUser, CandidacyRepository.delete,
    CandidacyRepository.hasCandidacy.
  exec. destruct (decide (has_candidacy s i u)) as [Hc|Hc].
  - rewrite (bool_decide_eq_true_2 (has_candidacy s i u) Hc).
    rewrite (find_candidacy_found s i u Hc). simpl. rewrite Hfilter.
    unfold has_candidacy in Hc. rewrite (bool_decide_eq_true_2 _ Hc).
    split; [done|]. eexists. split; [done|]. simpl. split.
    + do 2 f_equal. apply bool_decide_eq_false_2.
      assert (filter (CandidacyRepository.is_pair i u)
                (filter (λ c', c' ≠ {| c_donationId := i; c_userId := u |})
                   (candidacies s)) = []) as ->; [|simpl; lia].
      apply head_None, head_filter_None.
      intros c [Hne _]%list_elem_of_filter Hp.
      apply Hne. destruct c, Hp; simpl in *; by subst.
    + intros c Hne. rewrite list_elem_of_filter. split; [by intros [_ ?]|done].
  - rewrite (bool_decide_eq_false_2 (has_candidacy s i u) Hc).
    unfold has_candidacy in Hc. rewrite (bool_decide_eq_false_2 _ Hc).
    apply find_candidacy_None in Hc. by rewrite Hc.
Qed.

(** X27: [resetReturnProcess] undoes the flags of a return, not its reason.
    When the receiver has signalled a return on a record that carried no
    return flag, [resetReturnProcess] puts the Progress records back as they
    were before the signal, and the donation still carries the return reason.
    [resetAll] then leaves a record on which a new [signalReturn] is refused
    (ValidationError: the pickup is no longer confirmed). *)
Theorem resetReturnProcess_undoes_signal s i u reason s1 p :
  progress s !! i = Some p →
  no_return_flags p →
  DonationService.signalReturn i u reason s = (Ok tt, s1) →
  ∃ s2,
    DonationProgressRepository.resetReturnProcess i s1 = (Ok p, s2)
    ∧ progress s2 = progress s
    ∧ (returnReason <$> donations s2 !! i) = Some (Some reason)
    ∧ ∃ q s3,
        DonationProgressRepository.resetAll i s2 = (Ok q, s3)
        ∧ DonationService.signalReturn i u reason s3
          = (Err (AppError ValidationError), s3).
Proof.
  intros Hp (Hsig & Hcd & Hcr) Hrun.
  destruct (signalReturn_success s i u reason s1 Hrun)
    as (d & p0 & Hd & Hrec & Hp0 & Hpd & Hpr & _).
  assert (p0 = p) as -> by congruence.
  rewrite (signalReturn_ok s i u reason d p Hd Hrec Hp (conj Hpd Hpr)) in Hrun.
  injection Hrun as <-.
  unfold DonationProgressRepository.resetReturnProcess,
    DonationProgressRepository.resetAll.
  exec. rewrite !lookup_insert_eq. simpl.
  assert (DonationProgressRepository.apply_partial
            {| p_pickupConfirmedByDonor := None; p_pickupConfirmedByReceiver := None;
               p_completionConfirmedByDonor := None;
               p_completionConfirmedByReceiver := None;
               p_returnSignaledByReceiver := Some false;
               p_returnConfirmedByDonor := Some false;
               p_returnConfirmedByReceiver := Some false |}
            (DonationProgressRepository.apply_partial
               (DonationProgressRepository.only_returnSignaledByReceiver true) p)
          = p) as Hback.
  { destruct p; simpl in *; by subst. }
  rewrite Hback. eexists. split; [done|]. simpl.
  split; [by rewrite insert_insert_eq, insert_id|].
  split; [by rewrite lookup_insert_eq|].
  rewrite !lookup_insert_eq. simpl. do 2 eexists. split; [done|]. simpl.
  rewrite !lookup_insert_eq. simpl.
  rewrite bool_decide_eq_false_2 by (by intros ?). simpl.
  rewrite !lookup_insert_eq. simpl. rewrite !lookup_insert_eq. done.
Qed.

Lemma resetReturnProcess_undoes_signal_witness :
  let s := Scenario.store_after Scenario.picked_up in
  ∃ p s1 s2,
    progress s !! "d1" = Some p
    ∧ DonationService.signalReturn "d1" "bob" "item damaged" s = (Ok tt, s1)
    ∧ DonationProgressRepository.resetReturnProcess "d1" s1 = (Ok p, s2)
    ∧ progress s2 = progress s.
Proof.
  intros s.
  assert (progress s !! "d1"
          = Some {| pickupConfirmedByDonor := true; pickupConfirmedByReceiver := true;
                    completionConfirmedByDonor := false;
                    completionConfirmedByReceiver := false;
                    returnSignaledByReceiver := false; returnConfirmedByDonor := false;
                    returnConfirmedByReceiver := false |}) as Hp
    by (vm_compute; reflexivity).
  assert (DonationService.signalReturn "d1" "bob" "item damaged" s
          = (Ok tt, handle (ReqSignalReturn "d1" "bob" "item damaged") s)) as Hrun
    by (vm_compute; reflexivity).
  destruct (resetReturnProcess_undoes_signal s "d1" "bob" "item damaged" _ _ Hp
              (conj eq_refl (conj eq_refl eq_refl)) Hrun)
    as (s2 & Hreset & Hsame & _).
  eexists _, _, s2. split; [exact Hp|]. split; [exact Hrun|].
  split; [exact Hreset|exact Hsame].
Defined.

(** X28: in a reachable store [signalReturn] has four outcomes. With no such
    donation it throws NotFound; for anyone but the receiver, Forbidden; for
    the receiver, the Progress record is there, and the call is refused with
    ValidationError unless both pickup flags are true; otherwise it returns,
    having set [returnSignaledByReceiver] and the return reason and nothing
    else. Every refusal leaves the store as it was. *)
Theorem signalReturn_outcomes s i u reason :
  reachable s →
  match donations s !! i with
  | None =>
      DonationService.signalReturn i u reason s = (Err (AppError NotFoundError), s)
  | Some d =>
      if bool_decide (receiverId d = Some u)
      then
        ∃ p, progress s !! i = Some p
             ∧ if pickupConfirmedByDonor p && pickupConfirmedByReceiver p
               then
                 DonationService.signalReturn i u reason s
                 = (Ok tt,
                    set_donations
                      (insert i (DonationRepository.with_returnReason reason d))
                      (set_progress
                         (insert i
                            (DonationProgressRepository.apply_partial
                               (DonationProgressRepository.only_returnSignaledByReceiver
                                  true) p))
                         s))
               else
                 DonationService.signalReturn i u reason s
                 = (Err (AppError ValidationError), s)
      else
        DonationService.signalReturn i u reason s = (Err (AppError ForbiddenError), s)
  end.
Proof.
  intros Hs.
  destruct (donations s !! i) as [d|] eqn:Hd; [|exec; by rewrite Hd].
  case_bool_decide as Hrec.
  - assert (status d ≠ OPEN) as Hst.
    { intros Hst. pose proof (reachable_consistent s Hs i) as Hk.
      rewrite Hd in Hk. destruct Hk as [Hk _]. apply Hk in Hst. congruence. }
    destruct (reachable_progress_present s Hs i d Hd Hst) as [p Hp].
    exists p. split; [done|].
    destruct (pickupConfirmedByDonor p && pickupConfirmedByReceiver p) eqn:Hpick.
    + apply andb_true_iff in Hpick as [? ?]. by apply signalReturn_ok.
    + exec. rewrite Hd. simpl.
      rewrite bool_decide_eq_false_2 by (by intros ?). simpl.
      rewrite Hp. simpl. rewrite Hp. simpl. by rewrite Hpick.
  - exec. rewrite Hd. simpl. by rewrite bool_decide_eq_true_2.
Qed.

Lemma signalReturn_outcomes_witness :
  reachable (Scenario.store_after Scenario.chosen)
  ∧ DonationService.signalReturn "d1" "bob" "changed my mind"
      (Scenario.store_after Scenario.chosen)
    = (Err (AppError ValidationError), Scenario.store_after Scenario.chosen).
Proof.
  split; [apply reachable_store_after|].
  pose proof (signalReturn_outcomes (Scenario.store_after Scenario.chosen)
                "d1" "bob" "changed my mind"
                (reachable_store_after Scenario.chosen)) as Hout.
  assert (donations (Scenario.store_after Scenario.chosen) !! "d1"
          = Some (Scenario.chair_of IN_PROGRESS (Some "bob") None)) as Hd
    by (vm_compute; reflexivity).
  rewrite Hd in Hout.
  rewrite bool_decide_eq_true_2 in Hout by reflexivity.
  destruct Hout as (p & Hp & Hout).
  vm_compute in Hp. injection Hp as <-. exact Hout.
Defined.

(** ** The return reason *)

Lemma return_reason_handle r s :
  consistent s → return_reason_ok s → return_reason_ok (handle r s).
Proof.
  intros Hcons Hret.
  destruct r as [i ? ?|i ? ?|i ?|i ?|i ?|i ? ?|i ?|i ? ?|i ? ?|i ?];
    simpl; exec; split_run; try done; bool_hyps; stable_hyps.
  all: unfold return_reason_ok; simpl.
  all: intros k x Hx; lookup_hyp Hx; lookup_goal; simpl in *.
  all: try (by eapply Hret).
  all: try match goal with
       | Hd : donations _ !! ?k = Some ?d |- _ =>
           pose proof (Hret k d Hd) as Hk;
           try match goal with
               | Hp : progress _ !! k = _ |- _ => rewrite Hp in Hk
               end
       end.
  all: split; [intros Hsome|intros (q & Hq & Hflag)]; simplify_eq/=.
  all: try (by apply is_Some_None in Hsome).
  all: try (exfalso; by eapply no_donation_no_progress).
  all: try (exfalso; by eapply open_no_progress).
  all: try (by eauto).
  all: try (apply Hk in Hsome as (q & Hq & Hflag); simplify_eq/=; by eauto).
  all: try (apply Hk; by eauto).
Qed.

Lemma reachable_return_reason s : reachable s → return_reason_ok s.
Proof.
  induction 1 as [us|r s Hs IH].
  - intros k d Hd. simpl in Hd. by rewrite lookup_empty in Hd.
  - apply return_reason_handle; [by apply reachable_consistent|done].
Qed.

(** X29: in every reachable store a donation carries a return reason exactly
    when its Progress record has [returnSignaledByReceiver] set: the two are
    written together by [signalReturn] and go away together when the return
    is completed or the receiving is cancelled. A donation that is OPEN has no
    return reason. *)
Theorem return_reason_iff_signaled s k d :
  reachable s →
  donations s !! k = Some d →
  (is_Some (returnReason d)
   ↔ ∃ p, progress s !! k = Some p ∧ returnSignaledByReceiver p = true)
  ∧ (status d = OPEN → returnReason d = None).
Proof.
  intros Hs Hd. pose proof (reachable_return_reason s Hs k d Hd) as Hk.
  split; [done|]. intros Hst.
  destruct (returnReason d) as [reason|] eqn:Hr; [|done].
  destruct (proj1 Hk (mk_is_Some _ _ eq_refl)) as (p & Hp & _).
  exfalso. by eapply (open_no_progress s k d p (reachable_consistent s Hs)).
Qed.

Lemma return_reason_iff_signaled_witness :
  let s := Scenario.store_after Scenario.return_signaled in
  ∃ d, donations s !! "d1" = Some d
       ∧ returnReason d = Some "item damaged"
       ∧ ∃ p, progress s !! "d1" = Some p ∧ returnSignaledByReceiver p = true.
Proof.
  intros s. eexists. split; [exact store_after_return_signaled|].
  split; [reflexivity|].
  apply (proj1 (proj1 (return_reason_iff_signaled s "d1" _
                         (reachable_store_after Scenario.return_signaled)
                         store_after_return_signaled))).
  by eexists.
Defined.
